(** * Portfolio tracker: price cache, valuation and position store

    A shallow embedding of the two editions of the tracker,
    [early_editions/portfolio_tracker_3.py] (the Flask edition, class
    [PortfolioManager]) and [early_editions/portfolio_tracker_Tk_fails.py]
    (the Tk edition, classes [PortfolioTracker] and [PositionDialog]).

    Conventions of the embedding:
    - Python floats are exact rationals [Q]; NaN, infinities and rounding
      are outside the model.  Sums are accumulated left to right, as the
      loops do, so the equalities proved are syntactic ([=]), not only [==].
    - [datetime] values are integers counting microseconds; the five minute
      window is [five_minutes].
    - The environment (wall clock and market-data provider) is a [World]:
      the n-th clock read and the n-th provider query have fixed answers.
      The number of clock reads and the log of provider queries are kept in
      the state, so that "no provider call" is a statement about the log.
    - A Python exception is the [Raise] outcome of a small state-and-error
      monad. *)

From Stdlib Require Import ZArith QArith String Ascii List Bool Lia.
From stdpp Require Import base option list gmap strings.

Set Default Proof Using "Type".

(** ** Python values *)

(** [a > b] on floats. *)
Definition Qgtb (a b : Q) : bool := negb (Qle_bool a b).

(** Truth value of a float: zero is false. *)
Definition truthy (q : Q) : bool := negb (Qeq_bool q 0).

(** [sum] accumulated the way [total += x] does, starting from [0]. *)
Definition Qsum (l : list Q) : Q := fold_left Qplus l 0%Q.

(** [str.upper] on the ASCII range. *)
Definition upper_ascii (c : ascii) : ascii :=
  let n := nat_of_ascii c in
  if (97 <=? n)%nat && (n <=? 122)%nat then ascii_of_nat (n - 32) else c.

Fixpoint upper (s : string) : string :=
  match s with
  | EmptyString => EmptyString
  | String c s' => String (upper_ascii c) (upper s')
  end.

(** [str.strip] on the ASCII range: the characters [str.isspace] accepts
    there are the space, \t, \n, \v, \f, \r and the separators 28 to 31. *)
Definition is_space (c : ascii) : bool :=
  let n := nat_of_ascii c in
  (n =? 32)%nat || ((9 <=? n)%nat && (n <=? 13)%nat)
  || ((28 <=? n)%nat && (n <=? 31)%nat).

Fixpoint lstrip (s : string) : string :=
  match s with
  | EmptyString => EmptyString
  | String c s' => if is_space c then lstrip s' else s
  end.

Fixpoint rstrip (s : string) : string :=
  match s with
  | EmptyString => EmptyString
  | String c s' =>
      match rstrip s' with
      | EmptyString => if is_space c then EmptyString else String c EmptyString
      | r => String c r
      end
  end.

Definition strip (s : string) : string := rstrip (lstrip s).

(** Truth value of a string: the empty string is false. *)
Definition nonempty (s : string) : bool :=
  match s with
  | EmptyString => false
  | String _ _ => true
  end.

(** Exceptions the modelled code can raise. *)
Inductive Exn := KeyError | ValueError | IndexError.

Inductive Result (A : Type) :=
| Return (a : A)
| Raise (e : Exn).
Arguments Return {A} a.
Arguments Raise {A} e.

(** A CSV cell: text, a float as [csv] prints it, a float printed with
    the format [.2f] and a percent sign, or the stored ISO date. *)
Inductive Cell :=
| CellText (s : string)
| CellNumber (q : Q)
| CellPercent (q : Q)
| CellDate (t : Z).

Definition NA : Cell := CellText "N/A".

(** ** The price cache ([get_current_price], [refresh_all_prices]) *)

Module PriceCache.

(** What [yf.Ticker(t).history(period=...)] can do: raise, give an empty
    frame, or give a frame whose last close is [p]. *)
Inductive History :=
| HistoryError
| HistoryEmpty
| HistoryClose (p : Q).

Record World := {
  clock : nat -> Z;
  yf_history : nat -> string -> History
}.

(** [timedelta(minutes=5)] in microseconds. *)
Definition five_minutes : Z := 300000000.

Record Feed := {
  price_cache : gmap string Q;
  cache_timestamp : gmap string Z;
  clock_reads : nat;
  queries : list string
}.

(** [datetime.now()] *)
Definition datetime_now (w : World) (s : Feed) : Z * Feed :=
  (clock w (clock_reads s),
   {| price_cache := price_cache s; cache_timestamp := cache_timestamp s;
      clock_reads := S (clock_reads s); queries := queries s |}).

(** The provider call; the query is logged. *)
Definition query_provider (w : World) (ticker : string) (s : Feed) : History * Feed :=
  (yf_history w (length (queries s)) ticker,
   {| price_cache := price_cache s; cache_timestamp := cache_timestamp s;
      clock_reads := clock_reads s; queries := ticker :: queries s |}).

Definition store_price (ticker : string) (p : Q) (now : Z) (s : Feed) : Feed :=
  {| price_cache := <[ticker := p]> (price_cache s);
     cache_timestamp := <[ticker := now]> (cache_timestamp s);
     clock_reads := clock_reads s; queries := queries s |}.

(** The [try] block of [get_current_price]. *)
Definition fetch_price (w : World) (ticker : string) (now : Z) (s : Feed)
  : option Q * Feed :=
  let '(hist, s1) := query_provider w ticker s in
  match hist with
  | HistoryClose current_price => (Some current_price, store_price ticker current_price now s1)
  | HistoryEmpty => (None, s1)
  | HistoryError => (None, s1)
  end.

Definition get_current_price (w : World) (ticker : string) (s : Feed)
  : option Q * Feed :=
  let '(now, s1) := datetime_now w s in
  match price_cache s1 !! ticker, cache_timestamp s1 !! ticker with
  | Some cached, Some stamp =>
      if (now - stamp <? five_minutes)%Z then (Some cached, s1)
      else fetch_price w ticker now s1
  | _, _ => fetch_price w ticker now s1
  end.

(** The cache test of [get_current_price]: both dicts know the ticker and
    the stamp is less than five minutes old. *)
Definition fresh (s : Feed) (ticker : string) (now : Z) : bool :=
  match price_cache s !! ticker, cache_timestamp s !! ticker with
  | Some _, Some stamp => (now - stamp <? five_minutes)%Z
  | _, _ => false
  end.

(** The provider raised or gave an empty frame. *)
Definition failed (h : History) : bool :=
  match h with
  | HistoryClose _ => false
  | HistoryEmpty | HistoryError => true
  end.

Definition refresh_all_prices (s : Feed) : Feed :=
  {| price_cache := ∅; cache_timestamp := ∅;
     clock_reads := clock_reads s; queries := queries s |}.

(** The prices a loop gets that asks for each ticker in turn. *)
Fixpoint resolve_prices (w : World) (tickers : list string) (s : Feed)
  : list (option Q) * Feed :=
  match tickers with
  | [] => ([], s)
  | t :: rest =>
      let '(o, s1) := get_current_price w t s in
      let '(os, s2) := resolve_prices w rest s1 in
      (o :: os, s2)
  end.

(** What the two programs ever do to the cache and its environment: read the
    clock, price a ticker, or clear both dicts. *)
Inductive feed_step (w : World) : Feed -> Feed -> Prop :=
| step_now (s : Feed) : feed_step w s (snd (datetime_now w s))
| step_price (ticker : string) (s : Feed) :
    feed_step w s (snd (get_current_price w ticker s))
| step_refresh (s : Feed) : feed_step w s (refresh_all_prices s).

(** Both cache dicts know the same tickers. *)
Definition dicts_agree (s : Feed) : Prop :=
  forall t : string, is_Some (price_cache s !! t) <-> is_Some (cache_timestamp s !! t).

(** A feed before anything has happened. *)
Definition no_prices : Feed :=
  {| price_cache := ∅; cache_timestamp := ∅; clock_reads := 0; queries := [] |}.

End PriceCache.

(** ** The Flask edition: [PortfolioManager] and the export route *)

Module Web.
Import PriceCache.

Record Position := {
  id : Z;
  description : string;
  ticker : string;
  quantity : Q;
  purchase_price : Q;
  fees : Q;
  date_added : Z
}.

(** The JSON body of an add or edit request.  [None] in a text field is a
    missing key ([KeyError]); [None] in a numeric field is a value that
    [float()] refuses ([ValueError]). *)
Record PositionData := {
  pd_description : option string;
  pd_ticker : option string;
  pd_quantity : option Q;
  pd_purchase_price : option Q;
  pd_fees : option Q
}.

(** [data_file] logs every [save_data], most recent first. *)
Record State := {
  portfolio : list Position;
  feed : Feed;
  data_file : list (list Position)
}.

Definition M (A : Type) : Type := State -> Result A * State.

Definition ret {A} (a : A) : M A := fun s => (Return a, s).
Definition raise {A} (e : Exn) : M A := fun s => (Raise e, s).
Definition bind {A B} (m : M A) (k : A -> M B) : M B :=
  fun s =>
    match m s with
    | (Return a, s1) => k a s1
    | (Raise e, s1) => (Raise e, s1)
    end.

Notation "'let!' x := m 'in' k" := (bind m (fun x => k))
  (at level 10, x name, m at level 200, k at level 200).
Notation "'do!' m 'in' k" := (bind m (fun _ => k))
  (at level 10, m at level 200, k at level 200).

Definition gets {A} (f : State -> A) : M A := fun s => (Return (f s), s).

Definition with_feed {A} (f : Feed -> A * Feed) : M A :=
  fun s =>
    let '(a, fd) := f (feed s) in
    (Return a, {| portfolio := portfolio s; feed := fd; data_file := data_file s |}).

Definition set_portfolio (ps : list Position) : M unit :=
  fun s => (Return tt, {| portfolio := ps; feed := feed s; data_file := data_file s |}).

(** [d[k]] *)
Definition item {A} (o : option A) : M A :=
  match o with
  | Some a => ret a
  | None => raise KeyError
  end.

(** [float(d[k])] *)
Definition float (o : option Q) : M Q :=
  match o with
  | Some q => ret q
  | None => raise ValueError
  end.

Definition save_data : M unit :=
  fun s => (Return tt, {| portfolio := portfolio s; feed := feed s;
                          data_file := portfolio s :: data_file s |}).

Definition could_not_fetch (t : string) : string :=
  String.append "Could not fetch data for ticker '" (String.append t "'").

Definition add_position (w : World) (position_data : PositionData) : M (bool * string) :=
  let! t := item (pd_ticker position_data) in
  let! current_price := with_feed (get_current_price w (upper t)) in
  match current_price with
  | None => ret (false, could_not_fetch t)
  | Some _ =>
      let! n := gets (fun s => length (portfolio s)) in
      let! d := item (pd_description position_data) in
      let! q := float (pd_quantity position_data) in
      let! pp := float (pd_purchase_price position_data) in
      let! f := float (pd_fees position_data) in
      let! now := with_feed (datetime_now w) in
      let position :=
        {| id := Z.of_nat n + 1; description := d; ticker := upper t;
           quantity := q; purchase_price := pp; fees := f; date_added := now |} in
      let! ps := gets portfolio in
      do! set_portfolio (ps ++ [position]) in
      do! save_data in
      ret (true, "Position added successfully"%string)
  end.

(** First position of the list whose id is [position_id], with its index;
    the [for i, position in enumerate(...)] loops return at the first match. *)
Fixpoint find_position (position_id : Z) (ps : list Position) (i : nat)
  : option (nat * Position) :=
  match ps with
  | [] => None
  | position :: rest =>
      if (id position =? position_id)%Z then Some (i, position)
      else find_position position_id rest (S i)
  end.

(** [position.update({...})]: the five keys are replaced, the others kept. *)
Definition update (position : Position) (d t : string) (q pp f : Q) : Position :=
  {| id := id position; description := d; ticker := t; quantity := q;
     purchase_price := pp; fees := f; date_added := date_added position |}.

Definition edit_position (w : World) (position_id : Z) (position_data : PositionData)
  : M (bool * string) :=
  let! ps := gets portfolio in
  match find_position position_id ps 0 with
  | None => ret (false, "Position not found"%string)
  | Some (i, position) =>
      let! t := item (pd_ticker position_data) in
      let new_ticker := upper t in
      (* the statements after the ticker check *)
      let update_position : M (bool * string) :=
        let! d := item (pd_description position_data) in
        let! q := float (pd_quantity position_data) in
        let! pp := float (pd_purchase_price position_data) in
        let! f := float (pd_fees position_data) in
        do! set_portfolio (<[i := update position d new_ticker q pp f]> ps) in
        do! save_data in
        ret (true, "Position updated successfully"%string) in
      if String.eqb new_ticker (ticker position) then update_position
      else
        let! current_price := with_feed (get_current_price w new_ticker) in
        match current_price with
        | None => ret (false, could_not_fetch new_ticker)
        | Some _ => update_position
        end
  end.

Definition delete_position (position_id : Z) : M (bool * string) :=
  let! ps := gets portfolio in
  match find_position position_id ps 0 with
  | None => ret (false, "Position not found"%string)
  | Some (i, _) =>
      do! set_portfolio (delete i ps) in
      do! save_data in
      ret (true, "Position deleted successfully"%string)
  end.

(** *** Valuation *)

Record Row := {
  row_id : Z;
  row_description : string;
  row_ticker : string;
  row_quantity : Q;
  row_purchase_price : Q;
  row_total_cost : Q;
  row_fees : Q;
  row_current_price : option Q;
  row_current_value : option Q;
  row_pl : option Q;
  row_pl_percent : option Q;
  row_date_added : Z
}.

Record Summary := {
  total_investment : Q;
  total_current_value : Q;
  total_pl : Q;
  total_pl_percent : Q
}.

Definition total_cost (position : Position) : Q :=
  (quantity position * purchase_price position + fees position)%Q.

(** The dict one turn of the [for position in self.portfolio] loop appends,
    given the price the turn obtained. *)
Definition value_row (position : Position) (current_price : option Q) : Row :=
  let cost := total_cost position in
  let '(current_value, pl, pl_percent) :=
    match current_price with
    | Some price =>
        let current_value := (quantity position * price)%Q in
        let pl := (current_value - cost)%Q in
        (Some current_value, Some pl,
         Some (if Qgtb cost 0 then (pl / cost * 100)%Q else 0%Q))
    | None => (None, None, None)
    end in
  {| row_id := id position; row_description := description position;
     row_ticker := ticker position; row_quantity := quantity position;
     row_purchase_price := purchase_price position; row_total_cost := cost;
     row_fees := fees position; row_current_price := current_price;
     row_current_value := current_value; row_pl := pl;
     row_pl_percent := pl_percent; row_date_added := date_added position |}.

(** One turn of the loop on the three accumulators [portfolio_data],
    [total_investment] and [total_current_value]. *)
Definition value_position (position : Position) (current_price : option Q)
  (acc : list Row * Q * Q) : list Row * Q * Q :=
  let '(portfolio_data, investment, current) := acc in
  (portfolio_data ++ [value_row position current_price],
   (investment + total_cost position)%Q,
   match current_price with
   | Some price => (current + quantity position * price)%Q
   | None => current
   end).

Fixpoint portfolio_loop (w : World) (ps : list Position) (acc : list Row * Q * Q)
  (s : Feed) : list Row * Q * Q * Feed :=
  match ps with
  | [] => (acc, s)
  | position :: rest =>
      let '(current_price, s1) := get_current_price w (ticker position) s in
      portfolio_loop w rest (value_position position current_price acc) s1
  end.

Definition summarize (investment current : Q) : Summary :=
  let pl := if Qgtb current 0 then (current - investment)%Q else 0%Q in
  let pl_percent := if Qgtb investment 0 then (pl / investment * 100)%Q else 0%Q in
  {| total_investment := investment; total_current_value := current;
     total_pl := pl; total_pl_percent := pl_percent |}.

(** The sums of the invariant of the specification, in its words: the cost
    of every position, and the value of the positions whose price resolved. *)
Definition costs (ps : list Position) : list Q :=
  map (fun position =>
         (quantity position * purchase_price position + fees position)%Q) ps.

Definition resolved_values (ps : list Position) (prices : list (option Q)) : list Q :=
  omap (fun '(position, price) =>
          match price with
          | Some current_price => Some (quantity position * current_price)%Q
          | None => None
          end) (zip ps prices).

Definition get_portfolio_data (w : World) (s : State) : (list Row * Summary) * State :=
  let '(portfolio_data, investment, current, fd) :=
    portfolio_loop w (portfolio s) ([], 0%Q, 0%Q) (feed s) in
  ((portfolio_data, summarize investment current),
   {| portfolio := portfolio s; feed := fd; data_file := data_file s |}).

(** *** CSV export *)

(** [x if x else 'N/A'] *)
Definition or_NA (show : Q -> Cell) (o : option Q) : Cell :=
  match o with
  | Some q => if truthy q then show q else NA
  | None => NA
  end.

Definition csv_header : list Cell :=
  map CellText
    ["Description"; "Ticker"; "Quantity"; "Purchase Price"; "Total Cost"; "Fees";
     "Current Price"; "Current Value"; "P&L"; "P&L %"; "Date Added"]%string.

Definition csv_row (position : Row) : list Cell :=
  [ CellText (row_description position);
    CellText (row_ticker position);
    CellNumber (row_quantity position);
    CellNumber (row_purchase_price position);
    CellNumber (row_total_cost position);
    CellNumber (row_fees position);
    or_NA CellNumber (row_current_price position);
    or_NA CellNumber (row_current_value position);
    or_NA CellNumber (row_pl position);
    or_NA CellPercent (row_pl_percent position);
    CellDate (row_date_added position) ].

(** The route; the clock is read once more for the name of the download. *)
Definition export_data (w : World) (s : State) : list (list Cell) * State :=
  let '((portfolio_data, _), s1) := get_portfolio_data w s in
  let '(_, fd) := datetime_now w (feed s1) in
  (csv_header :: map csv_row portfolio_data,
   {| portfolio := portfolio s1; feed := fd; data_file := data_file s1 |}).

End Web.

(** ** The Tk edition: [PortfolioTracker] and [PositionDialog] *)

Module Desktop.
Import PriceCache.

(** A position as stored: the dialog's five keys, and [date_added] once the
    position has been added (a dict loaded from an older file may lack it). *)
Record Position := {
  description : string;
  ticker : string;
  quantity : Q;
  purchase_price : Q;
  fees : Q;
  date_added : option Z
}.

(** What [float()] makes of a text it accepts: a finite number, or one of
    the values it reads from texts such as nan, inf and -inf. *)
Inductive PyFloat :=
| Finite (q : Q)
| Nan
| Inf
| NegInf.

(** [x <= 0] and [x < 0] on such a value; every comparison with nan is
    false. *)
Definition le_zero (x : PyFloat) : bool :=
  match x with
  | Finite q => Qle_bool q 0
  | NegInf => true
  | Nan | Inf => false
  end.

Definition lt_zero (x : PyFloat) : bool :=
  match x with
  | Finite q => negb (Qle_bool 0 q)
  | NegInf => true
  | Nan | Inf => false
  end.

(** The entries of the dialog when OK is clicked.  The texts are taken in
    the ASCII range, where [strip] and [upper] are those of Python.  The
    numeric entries are given by what [float()] makes of their text, [None]
    when it raises [ValueError]. *)
Record Form := {
  description_var : string;
  ticker_var : string;
  quantity_var : option PyFloat;
  price_var : option PyFloat;
  fees_var : option PyFloat
}.

(** The dict [self.result] of the dialog. *)
Record DialogResult := {
  result_description : string;
  result_ticker : string;
  result_quantity : PyFloat;
  result_purchase_price : PyFloat;
  result_fees : PyFloat
}.

(** [PositionDialog.ok_clicked]: [inr] is the [result] that is set, [inl]
    the message of the [ValueError] that is shown instead. *)
Definition ok_clicked (form : Form) : string + DialogResult :=
  let description := strip (description_var form) in
  let ticker := upper (strip (ticker_var form)) in
  match quantity_var form, price_var form, fees_var form with
  | Some quantity, Some purchase_price, Some fees =>
      if negb (nonempty description) then inl "Description is required"%string
      else if negb (nonempty ticker) then inl "Ticker symbol is required"%string
      else if le_zero quantity then inl "Quantity must be positive"%string
      else if le_zero purchase_price then inl "Purchase price must be positive"%string
      else if lt_zero fees then inl "Fees cannot be negative"%string
      else inr {| result_description := description; result_ticker := ticker;
                  result_quantity := quantity;
                  result_purchase_price := purchase_price; result_fees := fees |}
  | _, _, _ => inl "could not convert string to float"%string
  end.

(** The dict of the dialog as a position of the portfolio, when its three
    numbers are finite: positions hold rationals. *)
Definition as_position (result : DialogResult) : option Position :=
  match result_quantity result, result_purchase_price result, result_fees result with
  | Finite quantity, Finite purchase_price, Finite fees =>
      Some {| description := result_description result;
              ticker := result_ticker result; quantity := quantity;
              purchase_price := purchase_price; fees := fees; date_added := None |}
  | _, _, _ => None
  end.

(** The numbers the test [if x <= 0: raise] lets through: the positive
    ones, and nan and inf, for which the comparison is false. *)
Definition passes_positive (x : PyFloat) : Prop :=
  match x with
  | Finite q => (0 < q)%Q
  | Nan | Inf => True
  | NegInf => False
  end.

(** The numbers the test [if x < 0: raise] lets through. *)
Definition passes_not_negative (x : PyFloat) : Prop :=
  match x with
  | Finite q => (0 <= q)%Q
  | Nan | Inf => True
  | NegInf => False
  end.

(** A row of the tree view; [tr_valuation] is the current price, current
    value, P&L and P&L percent, or [None] where the four cells read N/A. *)
Record TreeRow := {
  tr_description : string;
  tr_ticker : string;
  tr_quantity : Q;
  tr_purchase_price : Q;
  tr_total_cost : Q;
  tr_fees : Q;
  tr_valuation : option (Q * Q * Q * Q);
  tr_gain : option bool
}.

Record Summary := {
  total_investment : Q;
  total_current_value : Q;
  total_pl : Q;
  total_pl_percent : Q
}.

Record State := {
  portfolio : list Position;
  feed : Feed;
  data_file : list (list Position);
  tree : list TreeRow;
  summary : option Summary;
  status_var : string
}.

Definition set_feed (fd : Feed) (s : State) : State :=
  {| portfolio := portfolio s; feed := fd; data_file := data_file s;
     tree := tree s; summary := summary s; status_var := status_var s |}.

Definition set_portfolio (ps : list Position) (s : State) : State :=
  {| portfolio := ps; feed := feed s; data_file := data_file s;
     tree := tree s; summary := summary s; status_var := status_var s |}.

Definition set_status (m : string) (s : State) : State :=
  {| portfolio := portfolio s; feed := feed s; data_file := data_file s;
     tree := tree s; summary := summary s; status_var := m |}.

Definition save_data (s : State) : State :=
  {| portfolio := portfolio s; feed := feed s;
     data_file := portfolio s :: data_file s;
     tree := tree s; summary := summary s; status_var := status_var s |}.

Definition total_cost (position : Position) : Q :=
  (quantity position * purchase_price position + fees position)%Q.

(** The row one turn of the loop of [update_display] inserts. *)
Definition display_row (position : Position) (current_price : option Q) : TreeRow :=
  let cost := total_cost position in
  let '(valuation, gain) :=
    match current_price with
    | Some price =>
        let current_value := (quantity position * price)%Q in
        let pl := (current_value - cost)%Q in
        let pl_percent := if Qgtb cost 0 then (pl / cost * 100)%Q else 0%Q in
        (Some (price, current_value, pl, pl_percent), Some (Qle_bool 0 pl))
    | None => (None, None)
    end in
  {| tr_description := description position; tr_ticker := ticker position;
     tr_quantity := quantity position;
     tr_purchase_price := purchase_price position; tr_total_cost := cost;
     tr_fees := fees position; tr_valuation := valuation; tr_gain := gain |}.

(** One turn of the loop on the tree and the two totals. *)
Definition display_position (position : Position) (current_price : option Q)
  (acc : list TreeRow * Q * Q) : list TreeRow * Q * Q :=
  let '(rows, investment, current) := acc in
  (rows ++ [display_row position current_price],
   (investment + total_cost position)%Q,
   match current_price with
   | Some price => (current + quantity position * price)%Q
   | None => current
   end).

Fixpoint display_loop (w : World) (ps : list Position) (acc : list TreeRow * Q * Q)
  (s : Feed) : list TreeRow * Q * Q * Feed :=
  match ps with
  | [] => (acc, s)
  | position :: rest =>
      let '(current_price, s1) := get_current_price w (ticker position) s in
      display_loop w rest (display_position position current_price acc) s1
  end.

Definition summarize (investment current : Q) : Summary :=
  let pl := (current - investment)%Q in
  let pl_percent := if Qgtb investment 0 then (pl / investment * 100)%Q else 0%Q in
  {| total_investment := investment; total_current_value := current;
     total_pl := pl; total_pl_percent := pl_percent |}.

Definition update_display (w : World) (s : State) : State :=
  let '(rows, investment, current, fd) :=
    display_loop w (portfolio s) ([], 0%Q, 0%Q) (feed s) in
  {| portfolio := portfolio s; feed := fd; data_file := data_file s;
     tree := rows; summary := Some (summarize investment current);
     status_var := status_var s |}.

(** What the user sees of a command. *)
Inductive Outcome :=
| Done
| Cancelled
| ShowWarning (m : string)
| ShowError (m : string)
| Crash (e : Exn).

Definition could_not_fetch (t : string) : string :=
  String.append "Could not fetch data for ticker '"
    (String.append t "'. Please verify the ticker symbol.").

(** [add_position], given the [result] of the dialog it opens. *)
Definition add_position (w : World) (dialog_result : option Position) (s : State)
  : Outcome * State :=
  match dialog_result with
  | None => (Cancelled, s)
  | Some result =>
      let t := upper (ticker result) in
      let '(current_price, fd) := get_current_price w t (feed s) in
      let s1 := set_feed fd s in
      match current_price with
      | None => (ShowError (could_not_fetch t), s1)
      | Some _ =>
          let '(now, fd2) := datetime_now w (feed s1) in
          let position :=
            {| description := description result; ticker := t;
               quantity := quantity result; purchase_price := purchase_price result;
               fees := fees result; date_added := Some now |} in
          let s2 := set_portfolio (portfolio s1 ++ [position]) (set_feed fd2 s1) in
          let s3 := update_display w (save_data s2) in
          (Done, set_status (String.append "Added position: " t) s3)
      end
  end.

(** [edit_position], given the selected row of the tree, if any, and the
    [result] of the dialog opened on the selected position. *)
Definition edit_position (w : World) (selected : option nat)
  (dialog_result : Position -> option Position) (s : State) : Outcome * State :=
  match selected with
  | None => (ShowWarning "Please select a position to edit.", s)
  | Some index =>
      match portfolio s !! index with
      | None => (Crash IndexError, s)
      | Some position =>
          match dialog_result position with
          | None => (Cancelled, s)
          | Some result =>
              let t := upper (ticker result) in
              let '(current_price, fd) := get_current_price w t (feed s) in
              let s1 := set_feed fd s in
              match current_price with
              | None => (ShowError (could_not_fetch t), s1)
              | Some _ =>
                  let '(now, fd2) := datetime_now w (feed s1) in
                  let position' :=
                    {| description := description result; ticker := t;
                       quantity := quantity result;
                       purchase_price := purchase_price result; fees := fees result;
                       date_added := Some (default now (date_added position)) |} in
                  let s2 := set_portfolio (<[index := position']> (portfolio s1))
                              (set_feed fd2 s1) in
                  let s3 := update_display w (save_data s2) in
                  (Done, set_status (String.append "Updated position: " t) s3)
              end
          end
      end
  end.

(** One row of [export_data], given the price the turn obtained. *)
Definition csv_row (position : Position) (current_price : option Q) : list Cell :=
  let cost := total_cost position in
  let valuation :=
    match current_price with
    | Some price =>
        if truthy price then
          let current_value := (quantity position * price)%Q in
          let pl := (current_value - cost)%Q in
          let pl_percent := if Qgtb cost 0 then (pl / cost * 100)%Q else 0%Q in
          [CellNumber price; CellNumber current_value; CellNumber pl; CellNumber pl_percent]
        else [NA; NA; NA; NA]
    | None => [NA; NA; NA; NA]
    end in
  [ CellText (description position); CellText (ticker position);
    CellNumber (quantity position); CellNumber (purchase_price position);
    CellNumber cost; CellNumber (fees position) ] ++ valuation.

Definition csv_header : list Cell :=
  map CellText
    ["Description"; "Ticker"; "Quantity"; "Purchase Price"; "Total Cost"; "Fees";
     "Current Price"; "Current Value"; "P&L"; "P&L %"]%string.

Fixpoint export_loop (w : World) (ps : list Position) (s : Feed)
  : list (list Cell) * Feed :=
  match ps with
  | [] => ([], s)
  | position :: rest =>
      let '(current_price, s1) := get_current_price w (ticker position) s in
      let '(rows, s2) := export_loop w rest s1 in
      (csv_row position current_price :: rows, s2)
  end.

(** The clock is read first, for the name of the file. *)
Definition export_data (w : World) (s : State) : list (list Cell) * State :=
  let '(_, fd0) := datetime_now w (feed s) in
  let '(rows, fd) := export_loop w (portfolio s) fd0 in
  (csv_header :: rows, set_feed fd s).

(** [delete_position], given the selected row of the tree, if any, and the
    answer to the confirmation box. *)
Definition delete_position (w : World) (selected : option nat) (confirmed : bool)
  (s : State) : Outcome * State :=
  match selected with
  | None => (ShowWarning "Please select a position to delete.", s)
  | Some index =>
      if confirmed then
        match portfolio s !! index with
        | None => (Crash IndexError, s)
        | Some position =>
            let s1 := set_portfolio (delete index (portfolio s)) s in
            let s2 := update_display w (save_data s1) in
            (Done, set_status (String.append "Deleted position: " (ticker position)) s2)
        end
      else (Cancelled, s)
  end.

(** The loop of [refresh_thread]: one price per position, in turn.  The
    status lines it writes on the way are overwritten at the end. *)
Fixpoint refresh_loop (w : World) (ps : list Position) (s : Feed) : Feed :=
  match ps with
  | [] => s
  | position :: rest =>
      refresh_loop w rest (snd (get_current_price w (ticker position) s))
  end.

(** [refresh_prices], its thread run to the end without another command in
    between: both dicts are cleared, every position is priced, and the
    display is redrawn. *)
Definition refresh_prices (w : World) (s : State) : State :=
  let fd := refresh_loop w (portfolio s) (refresh_all_prices (feed s)) in
  set_status "Prices refreshed" (update_display w (set_feed fd s)).

(** The data file when the program starts. *)
Inductive DataFile :=
| Missing
| Unreadable
| Stored (ps : list Position).

(** [load_data], on the empty list [__init__] starts with. *)
Definition load_data (file : DataFile) : list Position :=
  match file with
  | Stored ps => ps
  | Missing | Unreadable => []
  end.

(** The tracker as [__init__] leaves it once the first refresh has run. *)
Definition PortfolioTracker (w : World) (file : DataFile) : State :=
  refresh_prices w
    {| portfolio := load_data file;
       feed := {| price_cache := ∅; cache_timestamp := ∅; clock_reads := 0; queries := [] |};
       data_file := []; tree := []; summary := None; status_var := "Ready" |}.

(** The commands of the button bar, with what the user does in the dialogs. *)
Inductive Command :=
| AddPosition (dialog_result : option Position)
| EditPosition (selected : option nat) (dialog_result : Position -> option Position)
| DeletePosition (selected : option nat) (confirmed : bool)
| RefreshPrices
| ExportData.

Definition run_command (w : World) (c : Command) (s : State) : Outcome * State :=
  match c with
  | AddPosition dialog_result => add_position w dialog_result s
  | EditPosition selected dialog_result => edit_position w selected dialog_result s
  | DeletePosition selected confirmed => delete_position w selected confirmed s
  | RefreshPrices => (Done, refresh_prices w s)
  | ExportData => (Done, snd (export_data w s))
  end.

Fixpoint run_commands (w : World) (cs : list Command) (s : State) : State :=
  match cs with
  | [] => s
  | c :: rest => run_commands w rest (snd (run_command w c s))
  end.

(** The display shows the portfolio: one row per position. *)
Definition display_in_step (s : State) : Prop := length (tree s) = length (portfolio s).

End Desktop.

(** ** The Flask application: the start of the manager and the routes *)

Module App.
Import PriceCache Web.

(** The data file when the manager starts. *)
Inductive DataFile :=
| Missing
| Unreadable
| Stored (ps : list Position).

(** [load_data], on the empty list [__init__] starts with. *)
Definition load_data (file : DataFile) : list Position :=
  match file with
  | Stored ps => ps
  | Missing | Unreadable => []
  end.

(** [PortfolioManager()]: empty caches, the portfolio of the file, nothing
    written yet. *)
Definition PortfolioManager (file : DataFile) : State :=
  {| portfolio := load_data file;
     feed := {| price_cache := ∅; cache_timestamp := ∅; clock_reads := 0; queries := [] |};
     data_file := [] |}.

(** The message of an answer: a text of the manager, or [str(e)] of the
    exception the route caught. *)
Inductive Message :=
| Text (m : string)
| ExceptionText (e : Exn).

(** The body a route sends. *)
Inductive Response :=
| Status (success : bool) (message : Message)
| PortfolioJson (portfolio_data : list Row) (summary : Summary)
| CsvFile (rows : list (list Cell)).

(** The [try ... except Exception as e] of the routes that change the store. *)
Definition guarded (m : M (bool * string)) (s : State) : Response * State :=
  match m s with
  | (Return (success, message), s1) => (Status success (Text message), s1)
  | (Raise e, s1) => (Status false (ExceptionText e), s1)
  end.

Definition get_portfolio (w : World) (s : State) : Response * State :=
  let '((portfolio_data, summary), s1) := get_portfolio_data w s in
  (PortfolioJson portfolio_data summary, s1).

Definition add_position (w : World) (data : PositionData) : State -> Response * State :=
  guarded (Web.add_position w data).

(** The id of the URL is a natural number (the [int] converter). *)
Definition edit_position (w : World) (position_id : nat) (data : PositionData)
  : State -> Response * State :=
  guarded (Web.edit_position w (Z.of_nat position_id) data).

Definition delete_position (position_id : nat) : State -> Response * State :=
  guarded (Web.delete_position (Z.of_nat position_id)).

Definition refresh_prices (s : State) : Response * State :=
  (Status true (Text "Prices refreshed successfully"),
   {| portfolio := portfolio s; feed := refresh_all_prices (feed s);
      data_file := data_file s |}).

Definition export_data (w : World) (s : State) : Response * State :=
  let '(rows, s1) := Web.export_data w s in (CsvFile rows, s1).

(** The requests of the interface, served one at a time. *)
Inductive Request :=
| GetPortfolio
| PostPosition (data : PositionData)
| PutPosition (position_id : nat) (data : PositionData)
| DeletePosition (position_id : nat)
| PostRefreshPrices
| GetExport.

Definition handle (w : World) (request : Request) (s : State) : Response * State :=
  match request with
  | GetPortfolio => get_portfolio w s
  | PostPosition data => add_position w data s
  | PutPosition position_id data => edit_position w position_id data s
  | DeletePosition position_id => delete_position position_id s
  | PostRefreshPrices => refresh_prices s
  | GetExport => export_data w s
  end.

Fixpoint serve (w : World) (requests : list Request) (s : State) : State :=
  match requests with
  | [] => s
  | request :: rest => serve w rest (snd (handle w request s))
  end.

(** What a manager started now would load: the last list written, or the
    file as it was when nothing has been written. *)
Definition on_disk (file : DataFile) (s : State) : DataFile :=
  match data_file s with
  | [] => file
  | ps :: _ => Stored ps
  end.

(** The ids are 1, 2, ..., n in the order of the list. *)
Definition sequential (ps : list Position) : Prop :=
  map id ps = map Z.of_nat (seq 1 (length ps)).

End App.

(** ** Sample worlds and states *)

Module Samples.
Import PriceCache.

(** A clock that advances one second per read. *)
Definition ticking (n : nat) : Z := (Z.of_nat n * 1000000)%Z.

(** A provider that always raises. *)
Definition provider_down : World :=
  {| clock := ticking; yf_history := fun _ _ => HistoryError |}.

(** A provider that quotes [p] for every ticker. *)
Definition quoting (p : Q) : World :=
  {| clock := ticking; yf_history := fun _ _ => HistoryClose p |}.

Definition empty_feed : Feed :=
  {| price_cache := ∅; cache_timestamp := ∅; clock_reads := 0; queries := [] |}.

(** AAPL cached at 150 at time 0. *)
Definition cached_feed : Feed :=
  {| price_cache := {[ "AAPL"%string := 150%Q ]};
     cache_timestamp := {[ "AAPL"%string := 0%Z ]};
     clock_reads := 0; queries := [] |}.

(** Ten shares of AAPL bought at 10 with no fees. *)
Definition apple : Web.Position :=
  {| Web.id := 1; Web.description := "Apple"; Web.ticker := "AAPL";
     Web.quantity := 10; Web.purchase_price := 10; Web.fees := 0;
     Web.date_added := 0 |}.

(** A position with a negative quantity, as the add route lets in. *)
Definition short : Web.Position :=
  {| Web.id := 1; Web.description := "Short"; Web.ticker := "AAPL";
     Web.quantity := -1; Web.purchase_price := 10; Web.fees := 0;
     Web.date_added := 0 |}.

(** A manager holding [ps], with empty caches and nothing written yet. *)
Definition holding (ps : list Web.Position) : Web.State :=
  {| Web.portfolio := ps; Web.feed := empty_feed; Web.data_file := [] |}.

(** An edit of position 1 that keeps the ticker (in lower case) and doubles
    the quantity. *)
Definition same_ticker_edit : Web.PositionData :=
  {| Web.pd_description := Some "Apple Inc"%string; Web.pd_ticker := Some "aapl"%string;
     Web.pd_quantity := Some 20%Q; Web.pd_purchase_price := Some 10%Q;
     Web.pd_fees := Some 0%Q |}.

(** An edit of position 1 that moves it to another ticker. *)
Definition other_ticker_edit : Web.PositionData :=
  {| Web.pd_description := Some "Microsoft"%string; Web.pd_ticker := Some "msft"%string;
     Web.pd_quantity := Some 20%Q; Web.pd_purchase_price := Some 10%Q;
     Web.pd_fees := Some 0%Q |}.

(** A request with a negative quantity. *)
Definition negative_request : Web.PositionData :=
  {| Web.pd_description := Some "Short"%string; Web.pd_ticker := Some "aapl"%string;
     Web.pd_quantity := Some (-1)%Q; Web.pd_purchase_price := Some 10%Q;
     Web.pd_fees := Some 0%Q |}.

(** A complete request for ten shares of AAPL. *)
Definition apple_request : Web.PositionData :=
  {| Web.pd_description := Some "Apple"%string; Web.pd_ticker := Some "aapl"%string;
     Web.pd_quantity := Some 10%Q; Web.pd_purchase_price := Some 10%Q;
     Web.pd_fees := Some 0%Q |}.

(** The position with id 2 that is left when the first of two is deleted. *)
Definition second : Web.Position :=
  {| Web.id := 2; Web.description := "Microsoft"; Web.ticker := "MSFT";
     Web.quantity := 1; Web.purchase_price := 300; Web.fees := 1;
     Web.date_added := 5 |}.

(** Requests that add two positions. *)
Definition two_adds : list App.Request :=
  [App.PostPosition apple_request; App.GetPortfolio; App.PostPosition apple_request].

(** A position of the Tk edition from an older file, without a date. *)
Definition undated : Desktop.Position :=
  {| Desktop.description := "Apple"; Desktop.ticker := "AAPL";
     Desktop.quantity := 10; Desktop.purchase_price := 10; Desktop.fees := 0;
     Desktop.date_added := None |}.

(** What the dialog returns when the quantity is changed to 20. *)
Definition doubled : Desktop.Position :=
  {| Desktop.description := "Apple"; Desktop.ticker := "AAPL";
     Desktop.quantity := 20; Desktop.purchase_price := 10; Desktop.fees := 0;
     Desktop.date_added := None |}.

(** A dialog filled in with blanks around the texts. *)
Definition padded_form : Desktop.Form :=
  {| Desktop.description_var := "  Apple Inc "; Desktop.ticker_var := " aapl ";
     Desktop.quantity_var := Some (Desktop.Finite 10);
     Desktop.price_var := Some (Desktop.Finite 10);
     Desktop.fees_var := Some (Desktop.Finite 0) |}.

(** The same dialog with the text nan as quantity. *)
Definition nan_form : Desktop.Form :=
  {| Desktop.description_var := "  Apple Inc "; Desktop.ticker_var := " aapl ";
     Desktop.quantity_var := Some Desktop.Nan;
     Desktop.price_var := Some (Desktop.Finite 10);
     Desktop.fees_var := Some (Desktop.Finite 0) |}.

(** What the dialog sets for [padded_form]. *)
Definition padded_result : Desktop.DialogResult :=
  {| Desktop.result_description := "Apple Inc"; Desktop.result_ticker := "AAPL";
     Desktop.result_quantity := Desktop.Finite 10;
     Desktop.result_purchase_price := Desktop.Finite 10;
     Desktop.result_fees := Desktop.Finite 0 |}.

(** A dialog filled in with a negative quantity. *)
Definition negative_form : Desktop.Form :=
  {| Desktop.description_var := "Short"; Desktop.ticker_var := "aapl";
     Desktop.quantity_var := Some (Desktop.Finite (-1));
     Desktop.price_var := Some (Desktop.Finite 10);
     Desktop.fees_var := Some (Desktop.Finite 0) |}.

(** A wall clock that is set back after its first reading, and a provider
    that always raises. *)
Definition clock_set_back : World :=
  {| clock := fun n => match n with O => five_minutes | S _ => 0%Z end;
     yf_history := fun _ _ => HistoryError |}.

End Samples.

(** * Properties *)

(** ** Numbers *)

Lemma Qgtb_true (a b : Q) : Qgtb a b = true <-> (b < a)%Q.
Proof.
  unfold Qgtb. rewrite negb_true_iff.
  split; intros H.
  - apply Qnot_le_lt. intros Hle. apply Qle_bool_iff in Hle. congruence.
  - destruct (Qle_bool a b) eqn:E; [| reflexivity].
    apply Qle_bool_iff in E. exfalso. exact (Qlt_not_le _ _ H E).
Qed.

Lemma Qgtb_false (a b : Q) : Qgtb a b = false <-> (a <= b)%Q.
Proof.
  unfold Qgtb. rewrite negb_false_iff. apply Qle_bool_iff.
Qed.

Lemma truthy_false (q : Q) : truthy q = false <-> (q == 0)%Q.
Proof.
  unfold truthy. rewrite negb_false_iff. apply Qeq_bool_iff.
Qed.

Example upper_mixed : upper "aApl.x" = "AAPL.X"%string.
Proof. reflexivity. Qed.

Example strip_both_sides :
  strip (String " " (String "009" "a b  ")) = "a b"%string.
Proof. reflexivity. Qed.

(** ** The price cache *)

(** Case analysis on the provider's answer the goal depends on. *)
Ltac case_provider :=
  match goal with
  | |- context [match PriceCache.yf_history ?w ?n ?t with _ => _ end] =>
      destruct (PriceCache.yf_history w n t) eqn:?; simpl
  end.

Section PriceCacheFacts.
Import PriceCache.
Variable w : World.

(** [get_current_price] reads the clock once, then serves a fresh entry or
    goes to the provider. *)
Lemma get_current_price_unfold (ticker : string) (s : Feed) :
  get_current_price w ticker s =
    let now := clock w (clock_reads s) in
    let s1 := snd (datetime_now w s) in
    if fresh s ticker now
    then (price_cache s !! ticker, s1)
    else fetch_price w ticker now s1.
Proof.
  unfold get_current_price, fresh. simpl.
  destruct (price_cache s !! ticker) as [p|]; [| reflexivity].
  destruct (cache_timestamp s !! ticker) as [stamp|]; [| reflexivity].
  destruct (_ <? _)%Z; reflexivity.
Qed.

Lemma fresh_entry (s : Feed) (ticker : string) (now : Z) :
  fresh s ticker now = true <->
  exists p stamp, price_cache s !! ticker = Some p /\
                  cache_timestamp s !! ticker = Some stamp /\
                  (now - stamp < five_minutes)%Z.
Proof.
  unfold fresh. split.
  - destruct (price_cache s !! ticker) as [p|]; [| discriminate].
    destruct (cache_timestamp s !! ticker) as [stamp|]; [| discriminate].
    intros H. apply Z.ltb_lt in H. eauto.
  - intros (p & stamp & -> & -> & H). apply Z.ltb_lt. exact H.
Qed.

(** A stale or missing entry stays so while the caches do not change and
    the clock does not run backwards. *)
Lemma stale_stays_stale (s s' : Feed) (ticker : string) (now now' : Z) :
  price_cache s' = price_cache s ->
  cache_timestamp s' = cache_timestamp s ->
  (now <= now')%Z ->
  fresh s ticker now = false -> fresh s' ticker now' = false.
Proof.
  unfold fresh. intros -> -> Hle.
  destruct (price_cache s !! ticker); [| reflexivity].
  destruct (cache_timestamp s !! ticker); [| reflexivity].
  rewrite !Z.ltb_ge. lia.
Qed.

(** A failed price leaves both dicts as they were. *)
Lemma get_current_price_None (ticker : string) (s : Feed) :
  fst (get_current_price w ticker s) = None ->
  price_cache (snd (get_current_price w ticker s)) = price_cache s /\
  cache_timestamp (snd (get_current_price w ticker s)) = cache_timestamp s.
Proof.
  rewrite get_current_price_unfold. cbv zeta.
  destruct (fresh s ticker _) eqn:Hf.
  - intros _. split; reflexivity.
  - unfold fetch_price, query_provider. simpl.
    destruct (yf_history w _ ticker); simpl; try discriminate; split; reflexivity.
Qed.

End PriceCacheFacts.

(** C5, as the code has it.  When the call reaches the provider (no fresh
    entry) and the provider raises or gives an empty frame,
    [get_current_price] returns [None], both cache dicts are exactly as
    before, and the provider was asked once; if the clock reading of the next
    call is not earlier than that of this call, the next call for the ticker
    asks the provider again. *)
Theorem get_price_failure_not_cached
  (w : PriceCache.World) (ticker : string) (s : PriceCache.Feed) :
  PriceCache.fresh s ticker (PriceCache.clock w (PriceCache.clock_reads s)) = false ->
  PriceCache.failed
    (PriceCache.yf_history w (length (PriceCache.queries s)) ticker) = true ->
  let r := PriceCache.get_current_price w ticker s in
  fst r = None /\
  PriceCache.price_cache (snd r) = PriceCache.price_cache s /\
  PriceCache.cache_timestamp (snd r) = PriceCache.cache_timestamp s /\
  PriceCache.queries (snd r) = ticker :: PriceCache.queries s /\
  ((PriceCache.clock w (PriceCache.clock_reads s)
      <= PriceCache.clock w (PriceCache.clock_reads (snd r)))%Z ->
   PriceCache.queries (snd (PriceCache.get_current_price w ticker (snd r)))
     = ticker :: ticker :: PriceCache.queries s).
Proof.
  intros Hstale Hfail r.
  assert (Hr : r = (None,
                    snd (PriceCache.query_provider w ticker
                           (snd (PriceCache.datetime_now w s))))).
  { subst r. rewrite get_current_price_unfold. cbv zeta. rewrite Hstale.
    unfold PriceCache.fetch_price, PriceCache.query_provider. simpl.
    destruct (PriceCache.yf_history w _ ticker); [reflexivity | reflexivity | discriminate]. }
  rewrite Hr. simpl. repeat split.
  intros Hclock.
  rewrite get_current_price_unfold. cbv zeta. simpl.
  erewrite stale_stays_stale; [| | | exact Hclock | exact Hstale]; [| reflexivity ..].
  unfold PriceCache.fetch_price, PriceCache.query_provider. simpl.
  case_provider; reflexivity.
Qed.

(** C6.  A ticker whose entry is less than five minutes old is served from
    the cache: the cached price is returned, the provider is not asked and
    both dicts are unchanged.  Hence a call that fetches price [p] followed by
    a call less than five minutes later both return [p], with one provider
    query between them. *)
Theorem get_price_served_from_cache (w : PriceCache.World) (ticker : string) :
  (forall (s : PriceCache.Feed) (p : Q) (stamp : Z),
      PriceCache.price_cache s !! ticker = Some p ->
      PriceCache.cache_timestamp s !! ticker = Some stamp ->
      (PriceCache.clock w (PriceCache.clock_reads s) - stamp
         < PriceCache.five_minutes)%Z ->
      let r := PriceCache.get_current_price w ticker s in
      fst r = Some p /\
      PriceCache.queries (snd r) = PriceCache.queries s /\
      PriceCache.price_cache (snd r) = PriceCache.price_cache s /\
      PriceCache.cache_timestamp (snd r) = PriceCache.cache_timestamp s) /\
  (forall (s : PriceCache.Feed) (p : Q),
      PriceCache.fresh s ticker (PriceCache.clock w (PriceCache.clock_reads s)) = false ->
      PriceCache.yf_history w (length (PriceCache.queries s)) ticker
        = PriceCache.HistoryClose p ->
      (PriceCache.clock w (S (PriceCache.clock_reads s))
         - PriceCache.clock w (PriceCache.clock_reads s) < PriceCache.five_minutes)%Z ->
      let r1 := PriceCache.get_current_price w ticker s in
      let r2 := PriceCache.get_current_price w ticker (snd r1) in
      fst r1 = Some p /\ fst r2 = Some p /\
      PriceCache.queries (snd r2) = ticker :: PriceCache.queries s).
Proof.
  assert (Hhit : forall (s : PriceCache.Feed) (p : Q) (stamp : Z),
      PriceCache.price_cache s !! ticker = Some p ->
      PriceCache.cache_timestamp s !! ticker = Some stamp ->
      (PriceCache.clock w (PriceCache.clock_reads s) - stamp
         < PriceCache.five_minutes)%Z ->
      PriceCache.get_current_price w ticker s
        = (Some p, snd (PriceCache.datetime_now w s))).
  { intros s p stamp Hp Hs Hlt.
    rewrite get_current_price_unfold. cbv zeta.
    replace (PriceCache.fresh s ticker _) with true.
    - rewrite Hp. reflexivity.
    - symmetry. apply fresh_entry. eauto. }
  split.
  - intros s p stamp Hp Hs Hlt r. subst r.
    rewrite (Hhit s p stamp Hp Hs Hlt). simpl. repeat split.
  - intros s p Hstale Hclose Hlt r1 r2.
    assert (H1 : r1 = (Some p,
                       PriceCache.store_price ticker p
                         (PriceCache.clock w (PriceCache.clock_reads s))
                         (snd (PriceCache.query_provider w ticker
                                 (snd (PriceCache.datetime_now w s)))))).
    { subst r1. rewrite get_current_price_unfold. cbv zeta. rewrite Hstale.
      unfold PriceCache.fetch_price, PriceCache.query_provider. simpl.
      rewrite Hclose. reflexivity. }
    subst r2. rewrite H1. simpl.
    erewrite Hhit.
    + simpl. repeat split.
    + simpl. apply lookup_insert_eq.
    + simpl. apply lookup_insert_eq.
    + simpl. exact Hlt.
Qed.

Lemma get_price_failure_not_cached_witness :
  fst (PriceCache.get_current_price Samples.provider_down "AAPL" Samples.empty_feed)
    = None /\
  PriceCache.queries
    (snd (PriceCache.get_current_price Samples.provider_down "AAPL"
            (snd (PriceCache.get_current_price Samples.provider_down "AAPL"
                    Samples.empty_feed))))
    = ["AAPL"; "AAPL"]%string.
Proof.
  pose proof (get_price_failure_not_cached Samples.provider_down "AAPL"
                Samples.empty_feed eq_refl eq_refl) as (H1 & _ & _ & _ & H2).
  split; [exact H1 |].
  apply H2. vm_compute. discriminate.
Defined.

(** C5 as the claim words it fails when the wall clock is set back: the
    entry of AAPL, stale at the first call, is not refreshed because the
    provider raises; at the next call the clock reads an earlier time, the
    old entry passes for fresh and is served, and the provider is not asked
    again. *)
Lemma get_price_retry_clock_back_cex :
  let w := Samples.clock_set_back in
  let s := Samples.cached_feed in
  let r1 := PriceCache.get_current_price w "AAPL" s in
  let r2 := PriceCache.get_current_price w "AAPL" (snd r1) in
  PriceCache.fresh s "AAPL" (PriceCache.clock w (PriceCache.clock_reads s)) = false /\
  PriceCache.failed
    (PriceCache.yf_history w (length (PriceCache.queries s)) "AAPL") = true /\
  fst r1 = None /\
  PriceCache.queries (snd r1) = ["AAPL"%string] /\
  fst r2 = Some 150%Q /\
  PriceCache.queries (snd r2) = PriceCache.queries (snd r1).
Proof. repeat split. Qed.

Lemma get_price_served_from_cache_witness :
  fst (PriceCache.get_current_price (Samples.quoting 150) "AAPL" Samples.cached_feed)
    = Some 150%Q /\
  PriceCache.queries
    (snd (PriceCache.get_current_price (Samples.quoting 150) "AAPL"
            (snd (PriceCache.get_current_price (Samples.quoting 150) "AAPL"
                    Samples.empty_feed))))
    = ["AAPL"]%string.
Proof.
  pose proof (get_price_served_from_cache (Samples.quoting 150) "AAPL")
    as [Hhit Htwice].
  split.
  - apply (Hhit Samples.cached_feed 150%Q 0%Z); [reflexivity | reflexivity |].
    vm_compute. reflexivity.
  - apply (Htwice Samples.empty_feed 150%Q); [reflexivity | reflexivity |].
    vm_compute. reflexivity.
Defined.

(** ** Valuation in the Flask edition *)

Section WebValuation.
Import PriceCache Web.
Variable w : World.

(** The loop, in closed form: the rows are the positions paired with the
    prices asked in turn, and each total is a left-to-right sum. *)
Lemma portfolio_loop_closed (ps : list Position) :
  forall (rows : list Row) (investment current : Q) (s : Feed),
    let prices := fst (resolve_prices w (map ticker ps) s) in
    portfolio_loop w ps (rows, investment, current) s =
      (rows ++ zip_with value_row ps prices,
       fold_left Qplus (costs ps) investment,
       fold_left Qplus (resolved_values ps prices) current,
       snd (resolve_prices w (map ticker ps) s)).
Proof.
  induction ps as [| position rest IH]; intros rows investment current s; simpl.
  - rewrite app_nil_r. reflexivity.
  - destruct (get_current_price w (ticker position) s) as [o s1].
    rewrite IH. clear IH.
    destruct (resolve_prices w (map ticker rest) s1) as [os s2]. simpl.
    rewrite <- app_assoc. simpl.
    unfold resolved_values. simpl.
    destruct o as [price|]; reflexivity.
Qed.

Lemma resolve_prices_length (tickers : list string) :
  forall s : Feed, length (fst (resolve_prices w tickers s)) = length tickers.
Proof.
  induction tickers as [| t rest IH]; intros s; simpl; [reflexivity |].
  destruct (get_current_price w t s) as [o s1].
  specialize (IH s1).
  destruct (resolve_prices w rest s1) as [os s2]. simpl in *. congruence.
Qed.

Lemma get_portfolio_data_closed (s : State) :
  let prices := fst (resolve_prices w (map ticker (portfolio s)) (feed s)) in
  fst (get_portfolio_data w s) =
    (zip_with value_row (portfolio s) prices,
     summarize (Qsum (costs (portfolio s)))
               (Qsum (resolved_values (portfolio s) prices))).
Proof.
  unfold get_portfolio_data. rewrite portfolio_loop_closed. reflexivity.
Qed.

Lemma row_current_price_value_row (ps : list Position) :
  forall prices : list (option Q),
    length prices = length ps ->
    map row_current_price (zip_with value_row ps prices) = prices.
Proof.
  induction ps as [| position rest IH]; intros [| o os] Hlen; simpl in *;
    try discriminate; [reflexivity |].
  f_equal.
  - destruct o; reflexivity.
  - apply IH. congruence.
Qed.

Lemma resolved_values_none (ps : list Position) :
  forall prices : list (option Q),
    Forall (fun o => o = None) prices -> resolved_values ps prices = [].
Proof.
  unfold resolved_values.
  induction ps as [| position rest IH]; intros prices Hall; [reflexivity |].
  destruct Hall as [| o os Ho Hos]; [reflexivity |].
  subst o. simpl. apply IH. exact Hos.
Qed.

(** Every row of the answer is [value_row] of a stored position and of the
    price its turn obtained. *)
Lemma get_portfolio_data_rows (s : State) (row : Row) :
  row ∈ fst (fst (get_portfolio_data w s)) ->
  exists position current_price,
    position ∈ portfolio s /\ row = value_row position current_price.
Proof.
  rewrite get_portfolio_data_closed. simpl.
  intros Hin. apply elem_of_lookup_zip_with in Hin as (i & position & o & -> & Hp & _).
  exists position, o. split; [| reflexivity].
  eapply list_elem_of_lookup_2. exact Hp.
Qed.

End WebValuation.

(** C1, as the Flask edition has it.  The aggregate [total_pl] of
    [get_portfolio_data] is [total_current_value - total_investment] when
    [total_current_value] is positive, and [0] otherwise; and
    [total_pl_percent] is [total_pl / total_investment * 100] when
    [total_investment] is positive, and [0] otherwise. *)
Theorem total_pl_guarded (w : PriceCache.World) (s : Web.State) :
  let summary := snd (fst (Web.get_portfolio_data w s)) in
  ((0 < Web.total_current_value summary)%Q ->
   Web.total_pl summary
     = (Web.total_current_value summary - Web.total_investment summary)%Q) /\
  ((Web.total_current_value summary <= 0)%Q -> Web.total_pl summary = 0%Q) /\
  ((0 < Web.total_investment summary)%Q ->
   Web.total_pl_percent summary
     = (Web.total_pl summary / Web.total_investment summary * 100)%Q) /\
  ((Web.total_investment summary <= 0)%Q -> Web.total_pl_percent summary = 0%Q).
Proof.
  rewrite get_portfolio_data_closed. simpl.
  repeat split; intros H;
    first [apply Qgtb_true in H | apply Qgtb_false in H]; rewrite H; reflexivity.
Qed.

(** C2.  The summary of [get_portfolio_data] has [total_investment] equal to
    the sum of [quantity * purchase_price + fees] over all positions, and
    [total_current_value] equal to the sum of [quantity * current_price]
    over the positions whose price resolved, the prices being those the rows
    report; when no price resolves the current value is [0] while the
    investment is still the full sum. *)
Theorem get_portfolio_data_totals (w : PriceCache.World) (s : Web.State) :
  let answer := fst (Web.get_portfolio_data w s) in
  let prices := map Web.row_current_price (fst answer) in
  prices
    = fst (PriceCache.resolve_prices w (map Web.ticker (Web.portfolio s)) (Web.feed s)) /\
  length prices = length (Web.portfolio s) /\
  Web.total_investment (snd answer) = Qsum (Web.costs (Web.portfolio s)) /\
  Web.total_current_value (snd answer)
    = Qsum (Web.resolved_values (Web.portfolio s) prices) /\
  (Forall (fun o => o = None) prices ->
   Web.total_current_value (snd answer) = 0%Q).
Proof.
  intros answer prices. subst prices answer.
  rewrite get_portfolio_data_closed. simpl.
  pose proof (resolve_prices_length w (map Web.ticker (Web.portfolio s)) (Web.feed s))
    as Hlen.
  rewrite length_map in Hlen.
  rewrite (row_current_price_value_row _ _ Hlen).
  repeat split; try assumption.
  intros Hnone. rewrite (resolved_values_none _ _ Hnone). reflexivity.
Qed.

Lemma get_portfolio_data_totals_witness :
  let answer :=
    fst (Web.get_portfolio_data Samples.provider_down
           (Samples.holding [Samples.apple])) in
  Web.total_investment (snd answer) = (0 + (10 * 10 + 0))%Q /\
  Web.total_current_value (snd answer) = 0%Q.
Proof.
  pose proof (get_portfolio_data_totals Samples.provider_down
                (Samples.holding [Samples.apple])) as (_ & _ & Hinv & _ & Hnone).
  split; [exact Hinv |].
  apply Hnone. repeat constructor.
Defined.

(** C3, as the code has it.  In every row of [get_portfolio_data] whose price
    resolved, [pl] is [quantity * current_price - total_cost], and
    [pl_percent] is [pl / total_cost * 100] when [total_cost] is positive and
    [0] when [total_cost] is zero or negative. *)
Theorem pl_percent_guarded
  (w : PriceCache.World) (s : Web.State) (row : Web.Row) (price : Q) :
  row ∈ fst (fst (Web.get_portfolio_data w s)) ->
  Web.row_current_price row = Some price ->
  let pl := (Web.row_quantity row * price - Web.row_total_cost row)%Q in
  Web.row_pl row = Some pl /\
  ((0 < Web.row_total_cost row)%Q ->
   Web.row_pl_percent row = Some (pl / Web.row_total_cost row * 100)%Q) /\
  ((Web.row_total_cost row <= 0)%Q -> Web.row_pl_percent row = Some 0%Q).
Proof.
  intros Hin Hprice.
  apply get_portfolio_data_rows in Hin as (position & o & _ & ->).
  destruct o as [p|]; simpl in Hprice; [| discriminate].
  injection Hprice as ->. simpl.
  split; [reflexivity |].
  split; intros H.
  - apply Qgtb_true in H. rewrite H. reflexivity.
  - apply Qgtb_false in H. rewrite H. reflexivity.
Qed.

(** The aggregate of C1 as the claim words it fails when no price resolves:
    with one position of cost 100 and the provider down, [total_pl] is [0],
    not [0 - 100]. *)
Lemma total_pl_unresolved_cex :
  let summary :=
    snd (fst (Web.get_portfolio_data Samples.provider_down
                (Samples.holding [Samples.apple]))) in
  ~ (Web.total_pl summary
       == Web.total_current_value summary - Web.total_investment summary)%Q.
Proof. vm_compute. discriminate. Qed.

Lemma total_pl_guarded_witness :
  (let summary :=
     snd (fst (Web.get_portfolio_data (Samples.quoting 12)
                 (Samples.holding [Samples.apple]))) in
   Web.total_pl summary
     = (Web.total_current_value summary - Web.total_investment summary)%Q /\
   Web.total_pl_percent summary
     = (Web.total_pl summary / Web.total_investment summary * 100)%Q) /\
  (let summary :=
     snd (fst (Web.get_portfolio_data Samples.provider_down
                 (Samples.holding [Samples.apple]))) in
   Web.total_pl summary = 0%Q) /\
  (let summary :=
     snd (fst (Web.get_portfolio_data Samples.provider_down (Samples.holding []))) in
   Web.total_pl_percent summary = 0%Q).
Proof.
  destruct (total_pl_guarded (Samples.quoting 12) (Samples.holding [Samples.apple]))
    as (Hpl & _ & Hpct & _).
  destruct (total_pl_guarded Samples.provider_down (Samples.holding [Samples.apple]))
    as (_ & Hzero & _).
  destruct (total_pl_guarded Samples.provider_down (Samples.holding []))
    as (_ & _ & _ & Hnone).
  split; [split |]; [| | split].
  - apply Hpl. vm_compute. reflexivity.
  - apply Hpct. vm_compute. reflexivity.
  - apply Hzero. vm_compute. discriminate.
  - apply Hnone. vm_compute. discriminate.
Defined.

(** The percentage of C3 as the claim words it fails for a negative cost:
    quantity -1 bought at 10 and quoted at 5 has cost -10 and P&L 5; the row
    reports 0 percent, not 5 / -10 * 100. *)
Lemma pl_percent_negative_cost_cex :
  exists (row : Web.Row) (price pl pct : Q),
    row ∈ fst (fst (Web.get_portfolio_data (Samples.quoting 5)
                      (Samples.holding [Samples.short]))) /\
    Web.row_current_price row = Some price /\
    Web.row_pl row = Some pl /\
    Web.row_pl_percent row = Some pct /\
    ~ (Web.row_total_cost row == 0)%Q /\
    ~ (pct == pl / Web.row_total_cost row * 100)%Q.
Proof.
  exists (Web.value_row Samples.short (Some 5%Q)), 5%Q.
  eexists. eexists.
  split; [apply list_elem_of_here |].
  split; [reflexivity |].
  split; [reflexivity |].
  split; [reflexivity |].
  split; vm_compute; discriminate.
Qed.

Lemma pl_percent_guarded_witness :
  Web.row_pl_percent (Web.value_row Samples.apple (Some 12%Q))
    = Some ((10 * 12 - (10 * 10 + 0)) / (10 * 10 + 0) * 100)%Q /\
  Web.row_pl_percent (Web.value_row Samples.short (Some 5%Q)) = Some 0%Q.
Proof.
  split.
  - apply (pl_percent_guarded (Samples.quoting 12) (Samples.holding [Samples.apple])
             (Web.value_row Samples.apple (Some 12%Q)) 12%Q).
    + apply list_elem_of_here.
    + reflexivity.
    + vm_compute. reflexivity.
  - apply (pl_percent_guarded (Samples.quoting 5) (Samples.holding [Samples.short])
             (Web.value_row Samples.short (Some 5%Q)) 5%Q).
    + apply list_elem_of_here.
    + reflexivity.
    + vm_compute. discriminate.
Defined.

(** ** The position store of the Flask edition *)

Section WebStore.
Import PriceCache Web.
Variable w : World.

Lemma find_position_lookup (position_id : Z) (ps : list Position) :
  forall (k i : nat) (position : Position),
    find_position position_id ps k = Some (i, position) ->
    (k <= i)%nat /\ ps !! (i - k)%nat = Some position /\ id position = position_id.
Proof.
  induction ps as [| p rest IH]; intros k i position; simpl; [discriminate |].
  destruct (id p =? position_id)%Z eqn:E.
  - intros [= <- <-]. rewrite Nat.sub_diag. apply Z.eqb_eq in E. auto.
  - intros H. apply IH in H as (Hle & Hl & Hid).
    split; [lia |]. split; [| exact Hid].
    replace (i - k)%nat with (S (i - S k)) by lia. exact Hl.
Qed.

(** What [edit_position] does once the position is found and the request is
    complete: the ticker is checked only if it differs from the stored one. *)
Lemma edit_position_found (position_id : Z) (position_data : PositionData)
  (s : State) (i : nat) (position : Position) (d t : string) (q pp f : Q) :
  find_position position_id (portfolio s) 0 = Some (i, position) ->
  position_data = {| pd_description := Some d; pd_ticker := Some t;
                     pd_quantity := Some q; pd_purchase_price := Some pp;
                     pd_fees := Some f |} ->
  upper t = ticker position ->
  edit_position w position_id position_data s =
    (Return (true, "Position updated successfully"%string),
     let ps := <[i := update position d (upper t) q pp f]> (portfolio s) in
     {| portfolio := ps; feed := feed s; data_file := ps :: data_file s |}).
Proof.
  intros Hfind -> Hsame.
  unfold edit_position, bind, gets. simpl. rewrite Hfind. simpl.
  rewrite <- Hsame, String.eqb_refl. reflexivity.
Qed.

End WebStore.

(** C4.  When the price of the requested ticker does not resolve,
    [add_position] returns the failure result and leaves the portfolio, the
    log of writes of the data file and both cache dicts as they were. *)
Theorem add_position_unresolvable_rejected
  (w : PriceCache.World) (position_data : Web.PositionData) (s : Web.State)
  (t : string) :
  Web.pd_ticker position_data = Some t ->
  fst (PriceCache.get_current_price w (upper t) (Web.feed s)) = None ->
  let r := Web.add_position w position_data s in
  fst r = Return (false, Web.could_not_fetch t) /\
  Web.portfolio (snd r) = Web.portfolio s /\
  Web.data_file (snd r) = Web.data_file s /\
  PriceCache.price_cache (Web.feed (snd r)) = PriceCache.price_cache (Web.feed s) /\
  PriceCache.cache_timestamp (Web.feed (snd r))
    = PriceCache.cache_timestamp (Web.feed s).
Proof.
  intros Ht Hnone r. subst r.
  pose proof (get_current_price_None w (upper t) (Web.feed s) Hnone) as [Hc Hs].
  unfold Web.add_position, Web.bind, Web.item, Web.with_feed. rewrite Ht. simpl.
  destruct (PriceCache.get_current_price w (upper t) (Web.feed s)) as [o fd].
  simpl in *. subst o. simpl. auto.
Qed.

Lemma add_position_unresolvable_rejected_witness :
  let r := Web.add_position Samples.provider_down Samples.negative_request
             (Samples.holding [Samples.apple]) in
  fst r = Return (false, Web.could_not_fetch "aapl") /\
  Web.portfolio (snd r) = [Samples.apple] /\
  Web.data_file (snd r) = [].
Proof.
  pose proof (add_position_unresolvable_rejected Samples.provider_down
                Samples.negative_request (Samples.holding [Samples.apple]) "aapl"
                eq_refl eq_refl) as (H1 & H2 & H3 & _).
  repeat split; assumption.
Defined.

Section WebEdit.
Import PriceCache Web.
Variable w : World.

(** The two ways an edit of a stored position ends: nothing is stored or
    written, and the result is not a success; or the request is complete, its
    ticker is the stored one or has a price, and the matched position is
    updated in place and the file rewritten. *)
Lemma edit_position_cases (position_id : Z) (position_data : PositionData)
  (s : State) (i : nat) (position : Position) :
  find_position position_id (portfolio s) 0 = Some (i, position) ->
  let r := edit_position w position_id position_data s in
  (portfolio (snd r) = portfolio s /\ data_file (snd r) = data_file s /\
   forall m : string, fst r <> Return (true, m)) \/
  (exists (d t : string) (q pp f : Q),
      position_data = {| pd_description := Some d; pd_ticker := Some t;
                         pd_quantity := Some q; pd_purchase_price := Some pp;
                         pd_fees := Some f |} /\
      (upper t = ticker position \/
       is_Some (fst (get_current_price w (upper t) (feed s)))) /\
      fst r = Return (true, "Position updated successfully"%string) /\
      portfolio (snd r) = <[i := update position d (upper t) q pp f]> (portfolio s) /\
      data_file (snd r) = portfolio (snd r) :: data_file s).
Proof.
  intros Hfind r. subst r.
  destruct position_data as [d t q pp f].
  unfold edit_position, bind, gets. simpl. rewrite Hfind.
  destruct t as [t|]; simpl; [| left; repeat split; discriminate].
  destruct (String.eqb (upper t) (ticker position)) eqn:Hsame.
  - apply String.eqb_eq in Hsame.
    destruct d as [d|], q as [q|], pp as [pp|], f as [f|]; simpl;
      try (left; repeat split; discriminate).
    right. exists d, t, q, pp, f. repeat split. left. exact Hsame.
  - unfold with_feed.
    destruct (get_current_price w (upper t) (feed s)) as [[price|] fd] eqn:Hprice;
      simpl; [| left; repeat split; discriminate].
    destruct d as [d|], q as [q|], pp as [pp|], f as [f|]; simpl;
      try (left; repeat split; discriminate).
    right. exists d, t, q, pp, f. repeat split. right. rewrite Hprice. eexists. reflexivity.
Qed.

End WebEdit.

(** C7, as the Flask edition has it.  An edit of a stored position whose
    submitted ticker differs from the stored ticker and has no resolvable
    price returns the failure result, and the portfolio and the data file are
    left as they were.  When the submitted ticker is the stored one no price
    fetch is made: the clock is not read, the provider is not asked and the
    cache is as before; and a complete request then succeeds and updates the
    position. *)
Theorem edit_position_new_ticker_validated
  (w : PriceCache.World) (position_id : Z) (position_data : Web.PositionData)
  (s : Web.State) (i : nat) (position : Web.Position) (t : string) :
  Web.find_position position_id (Web.portfolio s) 0 = Some (i, position) ->
  Web.pd_ticker position_data = Some t ->
  let r := Web.edit_position w position_id position_data s in
  (upper t <> Web.ticker position ->
   fst (PriceCache.get_current_price w (upper t) (Web.feed s)) = None ->
   fst r = Return (false, Web.could_not_fetch (upper t)) /\
   Web.portfolio (snd r) = Web.portfolio s /\
   Web.data_file (snd r) = Web.data_file s) /\
  (upper t = Web.ticker position ->
   Web.feed (snd r) = Web.feed s /\
   forall (d : string) (q pp f : Q),
     Web.pd_description position_data = Some d ->
     Web.pd_quantity position_data = Some q ->
     Web.pd_purchase_price position_data = Some pp ->
     Web.pd_fees position_data = Some f ->
     fst r = Return (true, "Position updated successfully"%string) /\
     Web.portfolio (snd r)
       = <[i := Web.update position d (upper t) q pp f]> (Web.portfolio s)).
Proof.
  intros Hfind Ht r. subst r. split.
  - intros Hdiff Hnone.
    unfold Web.edit_position, Web.bind, Web.gets. simpl. rewrite Hfind, Ht. simpl.
    apply String.eqb_neq in Hdiff. rewrite Hdiff.
    unfold Web.with_feed.
    destruct (PriceCache.get_current_price w (upper t) (Web.feed s)) as [o fd].
    simpl in Hnone. subst o. simpl. auto.
  - intros Hsame. split.
    + unfold Web.edit_position, Web.bind, Web.gets. simpl. rewrite Hfind, Ht. simpl.
      rewrite Hsame, String.eqb_refl.
      destruct (Web.pd_description position_data), (Web.pd_quantity position_data),
        (Web.pd_purchase_price position_data), (Web.pd_fees position_data);
        reflexivity.
    + intros d q pp f Hd Hq Hpp Hf.
      rewrite (edit_position_found w position_id position_data s i position d t q pp f
                 Hfind); [split; reflexivity | | exact Hsame].
      destruct position_data. simpl in *. congruence.
Qed.

Lemma edit_position_new_ticker_validated_witness :
  (let r := Web.edit_position Samples.provider_down 1 Samples.other_ticker_edit
              (Samples.holding [Samples.apple]) in
   fst r = Return (false, Web.could_not_fetch "MSFT") /\
   Web.portfolio (snd r) = [Samples.apple] /\
   Web.data_file (snd r) = []) /\
  (let r := Web.edit_position Samples.provider_down 1 Samples.same_ticker_edit
              (Samples.holding [Samples.apple]) in
   Web.feed (snd r) = Samples.empty_feed /\
   fst r = Return (true, "Position updated successfully"%string)).
Proof.
  split.
  - apply (edit_position_new_ticker_validated Samples.provider_down 1
             Samples.other_ticker_edit (Samples.holding [Samples.apple])
             0%nat Samples.apple "msft" eq_refl eq_refl).
    + vm_compute. discriminate.
    + reflexivity.
  - destruct (edit_position_new_ticker_validated Samples.provider_down 1
                Samples.same_ticker_edit (Samples.holding [Samples.apple])
                0%nat Samples.apple "aapl" eq_refl eq_refl) as [_ Hsame].
    destruct (Hsame eq_refl) as [Hfeed Hok].
    split; [exact Hfeed |].
    apply (Hok "Apple Inc"%string 20%Q 10%Q 0%Q); reflexivity.
Defined.

(** C7 as the claim words it fails when the submitted ticker is the stored
    one: with the provider down the price of AAPL does not resolve, yet the
    edit of the AAPL position succeeds and the stored position changes. *)
Lemma edit_same_ticker_cex :
  let s := Samples.holding [Samples.apple] in
  let r := Web.edit_position Samples.provider_down 1 Samples.same_ticker_edit s in
  Web.find_position 1 (Web.portfolio s) 0 = Some (0%nat, Samples.apple) /\
  fst (PriceCache.get_current_price Samples.provider_down (upper "aapl") (Web.feed s))
    = None /\
  fst r = Return (true, "Position updated successfully"%string) /\
  Web.portfolio (snd r) <> Web.portfolio s.
Proof.
  repeat split. vm_compute. discriminate.
Qed.

(** C10.  An edit whose id matches a stored position keeps the length of the
    portfolio and every position other than the matched one; the matched
    position keeps its [id] and [date_added]; on success its other five
    fields are those of the request (the ticker in upper case), and
    otherwise the matched position is unchanged as well. *)
Theorem edit_position_frame
  (w : PriceCache.World) (position_id : Z) (position_data : Web.PositionData)
  (s : Web.State) (i : nat) (position : Web.Position) :
  Web.find_position position_id (Web.portfolio s) 0 = Some (i, position) ->
  let r := Web.edit_position w position_id position_data s in
  length (Web.portfolio (snd r)) = length (Web.portfolio s) /\
  (forall j : nat, j <> i -> Web.portfolio (snd r) !! j = Web.portfolio s !! j) /\
  exists position' : Web.Position,
    Web.portfolio s !! i = Some position /\
    Web.portfolio (snd r) !! i = Some position' /\
    Web.id position' = Web.id position /\
    Web.date_added position' = Web.date_added position /\
    (forall m : string, fst r = Return (true, m) ->
       Web.pd_description position_data = Some (Web.description position') /\
       upper <$> Web.pd_ticker position_data = Some (Web.ticker position') /\
       Web.pd_quantity position_data = Some (Web.quantity position') /\
       Web.pd_purchase_price position_data = Some (Web.purchase_price position') /\
       Web.pd_fees position_data = Some (Web.fees position')) /\
    ((forall m : string, fst r <> Return (true, m)) -> position' = position).
Proof.
  intros Hfind r.
  pose proof (find_position_lookup _ _ _ _ _ Hfind) as (_ & Hlook & _).
  rewrite Nat.sub_0_r in Hlook.
  pose proof (lookup_lt_Some _ _ _ Hlook) as Hlt.
  destruct (edit_position_cases w position_id position_data s i position Hfind)
    as [(Hp & _ & Hfail) | (d & t & q & pp & f & -> & _ & Hok & Hp & _)];
    fold r in Hp; rewrite Hp.
  - split; [reflexivity |]. split; [reflexivity |].
    exists position.
    do 4 (split; [first [exact Hlook | reflexivity] |]).
    split; [| reflexivity].
    intros m Hm. exfalso. exact (Hfail m Hm).
  - split; [apply length_insert |].
    split; [intros j Hj; apply list_lookup_insert_ne; congruence |].
    exists (Web.update position d (upper t) q pp f).
    split; [exact Hlook |].
    split; [apply list_lookup_insert_eq; exact Hlt |].
    do 2 (split; [reflexivity |]).
    split; [intros m _; repeat split |].
    intros Hnot. exfalso. fold r in Hok. exact (Hnot _ Hok).
Qed.

Lemma edit_position_frame_witness :
  let r := Web.edit_position Samples.provider_down 1 Samples.same_ticker_edit
             (Samples.holding [Samples.apple]) in
  length (Web.portfolio (snd r)) = 1%nat /\
  exists position' : Web.Position,
    Web.portfolio (snd r) !! 0%nat = Some position' /\
    Web.id position' = 1%Z /\ Web.date_added position' = 0%Z.
Proof.
  pose proof (edit_position_frame Samples.provider_down 1 Samples.same_ticker_edit
                (Samples.holding [Samples.apple]) 0%nat Samples.apple eq_refl)
    as (Hlen & _ & position' & _ & Hl & Hid & Hdate & _).
  split; [exact Hlen |].
  exists position'. repeat split; assumption.
Defined.

(** C8.  The Flask edition checks no bound: with the provider quoting a
    price, [add_position] stores a request of quantity -1 and writes it to
    the data file. *)
Theorem add_position_stores_negative_quantity :
  let r := Web.add_position (Samples.quoting 5) Samples.negative_request
             (Samples.holding []) in
  fst r = Return (true, "Position added successfully"%string) /\
  exists position : Web.Position,
    Web.portfolio (snd r) = [position] /\
    Web.data_file (snd r) = [[position]] /\
    Web.quantity position = (-1)%Q /\
    ~ (0 < Web.quantity position)%Q.
Proof.
  split; [reflexivity |].
  eexists. split; [reflexivity |]. split; [reflexivity |].
  split; [reflexivity |]. vm_compute. discriminate.
Qed.

(** The edit route stores unchecked values the same way. *)
Lemma edit_position_stores_negative_quantity :
  let r := Web.edit_position (Samples.quoting 5) 1 Samples.negative_request
             (Samples.holding [Samples.apple]) in
  fst r = Return (true, "Position updated successfully"%string) /\
  Web.quantity <$> Web.portfolio (snd r) = [(-1)%Q].
Proof. split; reflexivity. Qed.

(** C9.  The export prints N/A for a computed zero: ten shares bought at 10
    and quoted at 10 have a resolved price and a P&L of exactly 0, and the
    row of the CSV shows the price and the value but N/A for P&L and P&L
    percent. *)
Theorem export_data_zero_pl_is_NA :
  let s := Samples.holding [Samples.apple] in
  let w := Samples.quoting 10 in
  Web.row_current_price <$> fst (fst (Web.get_portfolio_data w s)) = [Some 10%Q] /\
  (exists pl : Q,
      Web.row_pl <$> fst (fst (Web.get_portfolio_data w s)) = [Some pl] /\
      (pl == 0)%Q) /\
  exists cells : list Cell,
    fst (Web.export_data w s) = [Web.csv_header; cells] /\
    cells !! 6%nat = Some (CellNumber 10) /\
    cells !! 7%nat = Some (CellNumber (10 * 10)) /\
    cells !! 8%nat = Some NA /\
    cells !! 9%nat = Some NA.
Proof.
  split; [reflexivity |].
  split; [eexists; split; reflexivity |].
  eexists. split; [reflexivity |]. repeat split.
Qed.

(** ** What the export does in general *)

(** A cell printed with [x if x else 'N/A'] reads N/A exactly when the value
    is [None] or zero. *)
Lemma or_NA_iff (show : Q -> Cell) (o : option Q) :
  (forall q : Q, show q <> NA) ->
  Web.or_NA show o = NA <-> o = None \/ exists q : Q, o = Some q /\ (q == 0)%Q.
Proof.
  intros Hshow. unfold Web.or_NA.
  destruct o as [q|]; [| split; auto].
  destruct (truthy q) eqn:E.
  - split; [intros H; destruct (Hshow _ H) |].
    intros [H | (q' & [= <-] & H)]; [discriminate |].
    apply truthy_false in H. congruence.
  - split; [| reflexivity].
    intros _. right. exists q. split; [reflexivity |]. apply truthy_false. exact E.
Qed.

(** A row whose price did not resolve has N/A in all four cells. *)
Lemma csv_row_unresolved (position : Web.Position) :
  let cells := Web.csv_row (Web.value_row position None) in
  cells !! 6%nat = Some NA /\ cells !! 7%nat = Some NA /\
  cells !! 8%nat = Some NA /\ cells !! 9%nat = Some NA.
Proof. repeat split. Qed.

(** The export of the Tk edition prints the four computed numbers whenever
    the price is resolved and not zero, a P&L of zero included. *)
Lemma desktop_csv_row_resolved (position : Desktop.Position) (price : Q) :
  ~ (price == 0)%Q ->
  let cost := Desktop.total_cost position in
  let pl := (Desktop.quantity position * price - cost)%Q in
  drop 6 (Desktop.csv_row position (Some price)) =
    [CellNumber price; CellNumber (Desktop.quantity position * price); CellNumber pl;
     CellNumber (if Qgtb cost 0 then (pl / cost * 100)%Q else 0%Q)].
Proof.
  intros Hprice. unfold Desktop.csv_row.
  destruct (truthy price) eqn:E; [reflexivity |].
  apply truthy_false in E. contradiction.
Qed.

(** ** The Tk edition *)

Lemma le_zero_false (x : Desktop.PyFloat) :
  Desktop.le_zero x = false <-> Desktop.passes_positive x.
Proof.
  destruct x as [q| | |]; simpl; try (split; [auto | reflexivity]);
    [| split; [discriminate | intros []]].
  rewrite <- Qgtb_true. unfold Qgtb. rewrite negb_true_iff. reflexivity.
Qed.

Lemma lt_zero_false (x : Desktop.PyFloat) :
  Desktop.lt_zero x = false <-> Desktop.passes_not_negative x.
Proof.
  destruct x as [q| | |]; simpl; try (split; [auto | reflexivity]);
    [| split; [discriminate | intros []]].
  rewrite negb_false_iff. apply Qle_bool_iff.
Qed.

(** What the dialog sets has passed the three tests and has texts that are
    not empty. *)
Lemma ok_clicked_inr (form : Desktop.Form) (result : Desktop.DialogResult) :
  Desktop.ok_clicked form = inr result ->
  Desktop.quantity_var form = Some (Desktop.result_quantity result) /\
  Desktop.price_var form = Some (Desktop.result_purchase_price result) /\
  Desktop.fees_var form = Some (Desktop.result_fees result) /\
  Desktop.result_description result = strip (Desktop.description_var form) /\
  Desktop.result_ticker result = upper (strip (Desktop.ticker_var form)) /\
  nonempty (Desktop.result_description result) = true /\
  nonempty (Desktop.result_ticker result) = true /\
  Desktop.le_zero (Desktop.result_quantity result) = false /\
  Desktop.le_zero (Desktop.result_purchase_price result) = false /\
  Desktop.lt_zero (Desktop.result_fees result) = false.
Proof.
  unfold Desktop.ok_clicked.
  destruct (Desktop.quantity_var form) as [q|]; [| discriminate].
  destruct (Desktop.price_var form) as [pp|]; [| discriminate].
  destruct (Desktop.fees_var form) as [f|]; [| discriminate].
  destruct (nonempty (strip _)) eqn:Hd; [| discriminate].
  destruct (nonempty (upper _)) eqn:Ht; [| discriminate].
  destruct (Desktop.le_zero q) eqn:Hq; [discriminate |].
  destruct (Desktop.le_zero pp) eqn:Hpp; [discriminate |].
  destruct (Desktop.lt_zero f) eqn:Hf; [discriminate |].
  simpl. intros [= <-]. simpl. repeat split; assumption.
Qed.

(** A position that comes out of the dialog has a positive quantity, a
    positive purchase price and fees that are not negative. *)
Lemma ok_clicked_bounds (form : Desktop.Form) (result : Desktop.DialogResult)
  (position : Desktop.Position) :
  Desktop.ok_clicked form = inr result ->
  Desktop.as_position result = Some position ->
  (0 < Desktop.quantity position)%Q /\
  (0 < Desktop.purchase_price position)%Q /\
  (0 <= Desktop.fees position)%Q.
Proof.
  intros Hok Hpos.
  apply ok_clicked_inr in Hok as (_ & _ & _ & _ & _ & _ & _ & Hq & Hpp & Hf).
  apply le_zero_false in Hq, Hpp. apply lt_zero_false in Hf.
  unfold Desktop.as_position in Hpos.
  destruct (Desktop.result_quantity result) as [q| | |]; try discriminate.
  destruct (Desktop.result_purchase_price result) as [pp| | |]; try discriminate.
  destruct (Desktop.result_fees result) as [f| | |]; try discriminate.
  injection Hpos as <-. simpl. auto.
Qed.

Lemma ok_clicked_negative_quantity :
  Desktop.ok_clicked Samples.negative_form = inl "Quantity must be positive"%string.
Proof. reflexivity. Qed.

(** A position the Tk edition appends carries the numbers of the dialog. *)
Lemma desktop_add_position_stores_result
  (w : PriceCache.World) (result : Desktop.Position) (s s' : Desktop.State) :
  Desktop.add_position w (Some result) s = (Desktop.Done, s') ->
  exists position : Desktop.Position,
    Desktop.portfolio s' = Desktop.portfolio s ++ [position] /\
    Desktop.quantity position = Desktop.quantity result /\
    Desktop.purchase_price position = Desktop.purchase_price result /\
    Desktop.fees position = Desktop.fees result.
Proof.
  unfold Desktop.add_position.
  destruct (PriceCache.get_current_price w _ _) as [[price|] fd]; [| discriminate].
  simpl. unfold Desktop.update_display. simpl.
  destruct (Desktop.display_loop w _ _ _) as [[[rows inv] cur] fd'].
  intros [= <-]. simpl. eexists. split; [reflexivity |]. repeat split.
Qed.

(** In the Tk edition an unresolvable ticker is refused on add and on every
    edit, whether or not the ticker changed. *)
Lemma desktop_add_position_unresolvable
  (w : PriceCache.World) (result : Desktop.Position) (s : Desktop.State) :
  fst (PriceCache.get_current_price w (upper (Desktop.ticker result)) (Desktop.feed s))
    = None ->
  let r := Desktop.add_position w (Some result) s in
  fst r = Desktop.ShowError (Desktop.could_not_fetch (upper (Desktop.ticker result))) /\
  Desktop.portfolio (snd r) = Desktop.portfolio s /\
  Desktop.data_file (snd r) = Desktop.data_file s.
Proof.
  intros Hnone. unfold Desktop.add_position.
  destruct (PriceCache.get_current_price w _ _) as [o fd].
  simpl in Hnone. subst o. simpl. auto.
Qed.

Lemma desktop_edit_position_unresolvable
  (w : PriceCache.World) (index : nat) (position result : Desktop.Position)
  (dialog_result : Desktop.Position -> option Desktop.Position) (s : Desktop.State) :
  Desktop.portfolio s !! index = Some position ->
  dialog_result position = Some result ->
  fst (PriceCache.get_current_price w (upper (Desktop.ticker result)) (Desktop.feed s))
    = None ->
  let r := Desktop.edit_position w (Some index) dialog_result s in
  fst r = Desktop.ShowError (Desktop.could_not_fetch (upper (Desktop.ticker result))) /\
  Desktop.portfolio (snd r) = Desktop.portfolio s /\
  Desktop.data_file (snd r) = Desktop.data_file s.
Proof.
  intros Hlook Hres Hnone. unfold Desktop.edit_position.
  rewrite Hlook, Hres.
  destruct (PriceCache.get_current_price w _ _) as [o fd].
  simpl in Hnone. subst o. simpl. auto.
Qed.

(** The summary of the Tk edition has no guard on the aggregate P&L. *)
Lemma desktop_total_pl (w : PriceCache.World) (s : Desktop.State) :
  exists summary : Desktop.Summary,
    Desktop.summary (Desktop.update_display w s) = Some summary /\
    Desktop.total_pl summary
      = (Desktop.total_current_value summary - Desktop.total_investment summary)%Q.
Proof.
  unfold Desktop.update_display.
  destruct (Desktop.display_loop w _ _ _) as [[[rows inv] cur] fd].
  simpl. eexists. split; reflexivity.
Qed.

(** * Further properties of the code *)

(** ** The price cache *)

Section PriceCacheMore.
Import PriceCache.
Variable w : World.

(** The three ways a call ends. *)
Lemma get_current_price_cases (ticker : string) (s : Feed) :
  let now := clock w (clock_reads s) in
  let r := get_current_price w ticker s in
  (fresh s ticker now = true /\
   fst r = price_cache s !! ticker /\
   snd r = snd (datetime_now w s)) \/
  (fresh s ticker now = false /\
   ((exists p : Q,
        yf_history w (length (queries s)) ticker = HistoryClose p /\
        fst r = Some p /\
        snd r = store_price ticker p now
                  (snd (query_provider w ticker (snd (datetime_now w s))))) \/
    (failed (yf_history w (length (queries s)) ticker) = true /\
     fst r = None /\
     snd r = snd (query_provider w ticker (snd (datetime_now w s)))))).
Proof.
  intros now r. subst r now.
  rewrite get_current_price_unfold. cbv zeta.
  destruct (fresh s ticker _) eqn:Hf.
  - left. auto.
  - right. split; [reflexivity |].
    unfold fetch_price, query_provider. simpl.
    case_provider.
    + right. auto.
    + right. auto.
    + left. eauto.
Qed.

Lemma get_current_price_counters (ticker : string) (s : Feed) :
  let r := get_current_price w ticker s in
  clock_reads (snd r) = S (clock_reads s) /\
  (queries (snd r) = queries s \/ queries (snd r) = ticker :: queries s).
Proof.
  cbv zeta.
  destruct (get_current_price_cases ticker s)
    as [(_ & _ & ->) | (_ & [(p & _ & _ & ->) | (_ & _ & ->)])]; simpl; auto.
Qed.

End PriceCacheMore.

(** X1.  Whatever price a call returns is the price the cache holds for the
    ticker afterwards, and that entry is fresh at the time the call read. *)
Theorem returned_price_is_cached
  (w : PriceCache.World) (ticker : string) (s : PriceCache.Feed) (p : Q) :
  fst (PriceCache.get_current_price w ticker s) = Some p ->
  let s' := snd (PriceCache.get_current_price w ticker s) in
  PriceCache.price_cache s' !! ticker = Some p /\
  PriceCache.fresh s' ticker (PriceCache.clock w (PriceCache.clock_reads s)) = true.
Proof.
  intros Hret s'. subst s'.
  destruct (get_current_price_cases w ticker s)
    as [(Hf & Hr & ->) | (_ & [(q & _ & Hr & ->) | (_ & Hr & _)])];
    rewrite Hr in Hret.
  - simpl. split; [exact Hret |].
    apply fresh_entry in Hf as (p' & stamp & Hp & Hs & Hlt).
    apply fresh_entry. eauto.
  - injection Hret as ->. simpl. split; [apply lookup_insert_eq |].
    apply fresh_entry. exists p, (PriceCache.clock w (PriceCache.clock_reads s)).
    simpl. rewrite !lookup_insert_eq. repeat split.
    unfold PriceCache.five_minutes. lia.
  - discriminate.
Qed.

Lemma returned_price_is_cached_witness :
  PriceCache.price_cache
    (snd (PriceCache.get_current_price (Samples.quoting 150) "AAPL" Samples.empty_feed))
    !! "AAPL"%string = Some 150%Q.
Proof.
  apply (returned_price_is_cached (Samples.quoting 150) "AAPL" Samples.empty_feed 150%Q).
  reflexivity.
Defined.

(** X2.  A call for one ticker never touches the entries of another ticker,
    reads the clock once and asks the provider at most once. *)
Theorem get_current_price_frame
  (w : PriceCache.World) (ticker other : string) (s : PriceCache.Feed) :
  other <> ticker ->
  let s' := snd (PriceCache.get_current_price w ticker s) in
  PriceCache.price_cache s' !! other = PriceCache.price_cache s !! other /\
  PriceCache.cache_timestamp s' !! other = PriceCache.cache_timestamp s !! other /\
  PriceCache.clock_reads s' = S (PriceCache.clock_reads s) /\
  (PriceCache.queries s' = PriceCache.queries s \/
   PriceCache.queries s' = ticker :: PriceCache.queries s).
Proof.
  intros Hne s'. subst s'.
  destruct (get_current_price_cases w ticker s)
    as [(_ & _ & ->) | (_ & [(p & _ & _ & ->) | (_ & _ & ->)])]; simpl;
    rewrite ?lookup_insert_ne by congruence; auto.
Qed.

Lemma get_current_price_frame_witness :
  PriceCache.price_cache
    (snd (PriceCache.get_current_price (Samples.quoting 7) "MSFT" Samples.cached_feed))
    !! "AAPL"%string = Some 150%Q.
Proof.
  pose proof (get_current_price_frame (Samples.quoting 7) "MSFT" "AAPL"
                Samples.cached_feed) as H.
  destruct H as (H & _); [vm_compute; discriminate |].
  rewrite H. reflexivity.
Defined.

(** X3.  An entry that is five minutes old or older is not served: the
    provider is asked; a price it gives replaces the entry, stamped with the
    time of the call; when it fails the call returns [None] although the old
    price is still in the cache, and the old entry stays. *)
Theorem stale_entry_is_refetched
  (w : PriceCache.World) (ticker : string) (s : PriceCache.Feed) (old : Q) (stamp : Z) :
  PriceCache.price_cache s !! ticker = Some old ->
  PriceCache.cache_timestamp s !! ticker = Some stamp ->
  (PriceCache.five_minutes <= PriceCache.clock w (PriceCache.clock_reads s) - stamp)%Z ->
  let now := PriceCache.clock w (PriceCache.clock_reads s) in
  let r := PriceCache.get_current_price w ticker s in
  PriceCache.queries (snd r) = ticker :: PriceCache.queries s /\
  match PriceCache.yf_history w (length (PriceCache.queries s)) ticker with
  | PriceCache.HistoryClose p =>
      fst r = Some p /\
      PriceCache.price_cache (snd r) !! ticker = Some p /\
      PriceCache.cache_timestamp (snd r) !! ticker = Some now
  | _ =>
      fst r = None /\
      PriceCache.price_cache (snd r) !! ticker = Some old /\
      PriceCache.cache_timestamp (snd r) !! ticker = Some stamp
  end.
Proof.
  intros Hp Hs Hold now r. subst r now.
  assert (Hstale : PriceCache.fresh s ticker
                     (PriceCache.clock w (PriceCache.clock_reads s)) = false).
  { unfold PriceCache.fresh. rewrite Hp, Hs. apply Z.ltb_ge. exact Hold. }
  destruct (get_current_price_cases w ticker s)
    as [(Hf & _) | (_ & [(p & Hh & Hr & ->) | (Hfail & Hr & ->)])].
  - congruence.
  - rewrite Hh, Hr. simpl. rewrite !lookup_insert_eq. auto.
  - rewrite Hr. simpl.
    destruct (PriceCache.yf_history w _ ticker); [auto | auto | discriminate].
Qed.

Lemma stale_entry_is_refetched_witness :
  fst (PriceCache.get_current_price
         {| PriceCache.clock := fun _ => PriceCache.five_minutes;
            PriceCache.yf_history := fun _ _ => PriceCache.HistoryEmpty |}
         "AAPL" Samples.cached_feed) = None.
Proof.
  pose proof (stale_entry_is_refetched
                {| PriceCache.clock := fun _ => PriceCache.five_minutes;
                   PriceCache.yf_history := fun _ _ => PriceCache.HistoryEmpty |}
                "AAPL" Samples.cached_feed 150%Q 0%Z eq_refl eq_refl) as H.
  destruct H as (_ & H & _); [vm_compute; discriminate |].
  exact H.
Defined.

(** X4.  After [refresh_all_prices] the next call for any ticker asks the
    provider, whatever the clock says, and returns what the provider gives. *)
Theorem refresh_forces_query
  (w : PriceCache.World) (ticker : string) (s : PriceCache.Feed) :
  let r := PriceCache.get_current_price w ticker (PriceCache.refresh_all_prices s) in
  PriceCache.queries (snd r) = ticker :: PriceCache.queries s /\
  fst r = match PriceCache.yf_history w (length (PriceCache.queries s)) ticker with
          | PriceCache.HistoryClose p => Some p
          | _ => None
          end.
Proof.
  intros r. subst r.
  rewrite get_current_price_unfold. cbv zeta.
  unfold PriceCache.fresh. simpl. rewrite lookup_empty.
  unfold PriceCache.fetch_price, PriceCache.query_provider. simpl.
  case_provider; auto.
Qed.

(** ** Pricing a list of tickers in turn *)

Section ResolvePrices.
Import PriceCache.
Variable w : World.

Lemma resolve_prices_steps (tickers : list string) :
  forall s : Feed, rtc (feed_step w) s (snd (resolve_prices w tickers s)).
Proof.
  induction tickers as [| t rest IH]; intros s; simpl; [apply rtc_refl |].
  destruct (get_current_price w t s) as [o s1] eqn:E.
  specialize (IH s1).
  destruct (resolve_prices w rest s1) as [os s2]. simpl in *.
  eapply rtc_l; [| exact IH].
  replace s1 with (snd (get_current_price w t s)) by (rewrite E; reflexivity).
  constructor.
Qed.

(** The clock is read once per ticker, and the provider is asked at most
    once per ticker and only about tickers of the list. *)
Lemma resolve_prices_counters (tickers : list string) :
  forall s : Feed,
    let s' := snd (resolve_prices w tickers s) in
    clock_reads s' = (clock_reads s + length tickers)%nat /\
    exists asked : list string,
      queries s' = asked ++ queries s /\
      (length asked <= length tickers)%nat /\
      asked ⊆ tickers.
Proof.
  induction tickers as [| t rest IH]; intros s; simpl.
  - split; [lia |]. exists []. simpl. split; [reflexivity |]. split; [lia | set_solver].
  - pose proof (get_current_price_counters w t s) as [Hc Hq]. cbv zeta in Hc, Hq.
    destruct (get_current_price w t s) as [o s1]. simpl in Hc, Hq.
    specialize (IH s1). cbv zeta in IH.
    destruct (resolve_prices w rest s1) as [os s2]. simpl in *.
    destruct IH as (Hc2 & asked & Hq2 & Hlen & Hsub).
    split; [lia |].
    destruct Hq as [Hq | Hq]; rewrite Hq in Hq2.
    + exists asked. split; [exact Hq2 |]. split; [lia |].
      intros x Hx. apply elem_of_cons. right. exact (Hsub x Hx).
    + exists (asked ++ [t]). rewrite <- app_assoc. split; [exact Hq2 |].
      rewrite length_app. simpl. split; [lia |].
      intros x Hx. apply elem_of_app in Hx as [Hx | Hx].
      * apply elem_of_cons. right. exact (Hsub x Hx).
      * apply list_elem_of_singleton in Hx as ->. apply elem_of_cons. left. reflexivity.
Qed.

(** Started with every cached ticker already in the part [asked0] of the
    log, the loop asks the provider about every ticker of the list. *)
Lemma resolve_prices_asks (tickers : list string) :
  forall (s : Feed) (asked0 base : list string),
    queries s = asked0 ++ base ->
    (forall t : string, is_Some (price_cache s !! t) -> t ∈ asked0) ->
    exists asked : list string,
      queries (snd (resolve_prices w tickers s)) = asked ++ base /\
      asked0 ⊆ asked /\
      (forall t : string, t ∈ tickers -> t ∈ asked).
Proof.
  induction tickers as [| t rest IH]; intros s asked0 base Hq Hinv; simpl.
  - exists asked0. split; [exact Hq | set_solver].
  - assert (Hnext : exists asked1 : list string,
               queries (snd (get_current_price w t s)) = asked1 ++ base /\
               t ∈ asked1 /\ asked0 ⊆ asked1 /\
               (forall t' : string,
                   is_Some (price_cache (snd (get_current_price w t s)) !! t') ->
                   t' ∈ asked1)).
    { destruct (get_current_price_cases w t s)
        as [(Hf & _ & ->) | (_ & [(p & _ & _ & ->) | (_ & _ & ->)])]; simpl.
      - exists asked0. split; [exact Hq |].
        apply fresh_entry in Hf as (p & stamp & Hp & _).
        split; [apply Hinv; rewrite Hp; eauto |]. split; [set_solver | exact Hinv].
      - exists (t :: asked0). rewrite Hq. split; [reflexivity |].
        split; [set_solver |]. split; [set_solver |].
        intros t' Ht'. destruct (decide (t' = t)) as [-> | Hne]; [set_solver |].
        rewrite lookup_insert_ne in Ht' by congruence.
        apply Hinv in Ht'. set_solver.
      - exists (t :: asked0). rewrite Hq. split; [reflexivity |].
        split; [set_solver |]. split; [set_solver |].
        intros t' Ht'. apply Hinv in Ht'. set_solver. }
    destruct Hnext as (asked1 & Hq1 & Ht & Hsub & Hinv1).
    destruct (get_current_price w t s) as [o s1]. simpl in *.
    destruct (IH s1 asked1 base Hq1 Hinv1) as (asked & Hq2 & Hsub2 & Hall).
    destruct (resolve_prices w rest s1) as [os s2]. simpl in *.
    exists asked. split; [exact Hq2 |]. split; [set_solver |].
    intros t' Ht'. apply elem_of_cons in Ht' as [-> | Ht']; [set_solver | auto].
Qed.

End ResolvePrices.

(** ** What every run keeps true of the cache *)

Section FeedInvariants.
Import PriceCache.
Variable w : World.

Lemma feed_step_dicts_agree (s s' : Feed) :
  feed_step w s s' -> dicts_agree s -> dicts_agree s'.
Proof.
  intros Hstep Hagree. destruct Hstep as [s | ticker s | s].
  - exact Hagree.
  - destruct (get_current_price_cases w ticker s)
      as [(_ & _ & ->) | (_ & [(p & _ & _ & ->) | (_ & _ & ->)])]; simpl;
      try exact Hagree.
    intros t. simpl. destruct (decide (t = ticker)) as [-> | Hne].
    + rewrite !lookup_insert_eq. split; eauto.
    + rewrite !lookup_insert_ne by congruence. apply Hagree.
  - intros t. simpl. rewrite !lookup_empty. split; intros [x Hx]; discriminate.
Qed.

Lemma feed_steps_dicts_agree (s s' : Feed) :
  rtc (feed_step w) s s' -> dicts_agree s -> dicts_agree s'.
Proof.
  induction 1 as [| s s1 s' Hstep _ IH]; [auto |].
  intros Hagree. apply IH. eapply feed_step_dicts_agree; eassumption.
Qed.

Lemma dicts_agree_no_prices : dicts_agree no_prices.
Proof.
  intros t. simpl. rewrite !lookup_empty. split; intros [x Hx]; discriminate.
Qed.

End FeedInvariants.

(** ** The store of the Flask edition, operation by operation *)

Section WebOperations.
Import PriceCache Web.
Variable w : World.

(** The two ways [add_position] ends: the request is complete and its
    ticker has a price, and the position is appended and the file rewritten;
    or nothing is stored or written and the result is not a success. *)
Lemma add_position_cases (position_data : PositionData) (s : State) :
  let r := add_position w position_data s in
  (exists (d t : string) (q pp f price : Q),
      position_data = {| pd_description := Some d; pd_ticker := Some t;
                         pd_quantity := Some q; pd_purchase_price := Some pp;
                         pd_fees := Some f |} /\
      let g := get_current_price w (upper t) (feed s) in
      let position :=
        {| id := Z.of_nat (length (portfolio s)) + 1; description := d;
           ticker := upper t; quantity := q; purchase_price := pp; fees := f;
           date_added := clock w (clock_reads (snd g)) |} in
      fst g = Some price /\
      r = (Return (true, "Position added successfully"%string),
           {| portfolio := portfolio s ++ [position];
              feed := snd (datetime_now w (snd g));
              data_file := (portfolio s ++ [position]) :: data_file s |})) \/
  ((forall m : string, fst r <> Return (true, m)) /\
   portfolio (snd r) = portfolio s /\
   data_file (snd r) = data_file s /\
   (feed (snd r) = feed s \/
    exists t : string, feed (snd r) = snd (get_current_price w t (feed s)))).
Proof.
  intros r. subst r.
  destruct position_data as [d t q pp f].
  unfold add_position, bind, item, with_feed. simpl.
  destruct t as [t|]; simpl; [| right; repeat split; auto; discriminate].
  destruct (get_current_price w (upper t) (feed s)) as [[price|] fd] eqn:Hprice;
    simpl; [| right; repeat split; eauto using f_equal; try discriminate].
  - destruct d as [d|], q as [q|], pp as [pp|], f as [f|]; simpl;
      try (right; repeat split; try discriminate;
           right; exists (upper t); rewrite Hprice; reflexivity).
    left. exists d, t, q, pp, f, price. split; [reflexivity |].
    rewrite Hprice. simpl. split; reflexivity.
  - right. exists (upper t). rewrite Hprice. reflexivity.
Qed.

Lemma edit_position_feed (position_id : Z) (position_data : PositionData) (s : State) :
  let r := edit_position w position_id position_data s in
  feed (snd r) = feed s \/
  exists t : string, feed (snd r) = snd (get_current_price w t (feed s)).
Proof.
  intros r. subst r.
  destruct position_data as [d t q pp f].
  unfold edit_position, bind, gets. simpl.
  destruct (find_position position_id (portfolio s) 0) as [[i position]|];
    simpl; [| auto].
  destruct t as [t|]; simpl; [| auto].
  destruct (String.eqb (upper t) (ticker position)).
  - destruct d as [d|], q as [q|], pp as [pp|], f as [f|]; simpl; auto.
  - unfold with_feed.
    destruct (get_current_price w (upper t) (feed s)) as [[price|] fd] eqn:Hprice;
      simpl.
    + destruct d as [d|], q as [q|], pp as [pp|], f as [f|]; simpl;
        right; exists (upper t); rewrite Hprice; reflexivity.
    + right. exists (upper t). rewrite Hprice. reflexivity.
Qed.

Lemma find_position_None (position_id : Z) (ps : list Position) :
  forall k : nat,
    find_position position_id ps k = None <-> position_id ∉ map id ps.
Proof.
  induction ps as [| p rest IH]; intros k; simpl.
  - split; [intros _; apply not_elem_of_nil | reflexivity].
  - rewrite not_elem_of_cons.
    destruct (id p =? position_id)%Z eqn:E.
    + apply Z.eqb_eq in E. split; [discriminate | intros [Hne _]; congruence].
    + apply Z.eqb_neq in E. rewrite IH. split; [auto | tauto].
Qed.

(** The index found is the first with the id. *)
Lemma find_position_first (position_id : Z) (ps : list Position) :
  forall (k i : nat) (position : Position),
    find_position position_id ps k = Some (i, position) ->
    forall (j : nat) (other : Position),
      (j < i - k)%nat -> ps !! j = Some other -> id other <> position_id.
Proof.
  induction ps as [| p rest IH]; intros k i position; simpl; [discriminate |].
  destruct (id p =? position_id)%Z eqn:E.
  - intros [= <- <-] j other Hj. lia.
  - intros Hfind j other Hj Hl.
    apply Z.eqb_neq in E.
    destruct j as [| j]; simpl in Hl.
    + injection Hl as <-. exact E.
    + eapply (IH (S k) i position Hfind j other); [lia | exact Hl].
Qed.

Lemma find_position_app (position_id : Z) (ps qs : list Position) :
  forall k : nat,
    find_position position_id (ps ++ qs) k =
      match find_position position_id ps k with
      | Some found => Some found
      | None => find_position position_id qs (k + length ps)
      end.
Proof.
  induction ps as [| p rest IH]; intros k; simpl.
  - rewrite Nat.add_0_r. reflexivity.
  - destruct (id p =? position_id)%Z; [reflexivity |].
    rewrite IH. replace (S k + length rest)%nat with (k + S (length rest))%nat by lia.
    reflexivity.
Qed.

Lemma delete_position_cases (position_id : Z) (s : State) :
  delete_position position_id s =
    match find_position position_id (portfolio s) 0 with
    | Some (i, _) =>
        (Return (true, "Position deleted successfully"%string),
         {| portfolio := delete i (portfolio s); feed := feed s;
            data_file := delete i (portfolio s) :: data_file s |})
    | None => (Return (false, "Position not found"%string), s)
    end.
Proof.
  unfold delete_position, bind, gets. simpl.
  destruct (find_position position_id (portfolio s) 0) as [[i position]|];
    reflexivity.
Qed.

End WebOperations.

Section WebRequests.
Import PriceCache Web.
Variable w : World.

Lemma get_portfolio_data_state (s : State) :
  snd (get_portfolio_data w s) =
    {| portfolio := portfolio s;
       feed := snd (resolve_prices w (map ticker (portfolio s)) (feed s));
       data_file := data_file s |}.
Proof.
  unfold get_portfolio_data. rewrite portfolio_loop_closed. reflexivity.
Qed.

Lemma export_data_closed (s : State) :
  Web.export_data w s =
    (csv_header :: map csv_row (fst (fst (get_portfolio_data w s))),
     {| portfolio := portfolio s;
        feed := snd (datetime_now w (feed (snd (get_portfolio_data w s))));
        data_file := data_file s |}).
Proof.
  unfold Web.export_data.
  pose proof (get_portfolio_data_state s) as Hs.
  destruct (get_portfolio_data w s) as [[rows summary] s1]. simpl in *.
  subst s1. reflexivity.
Qed.

(** An edit either changes nothing of the store, or succeeds and rewrites
    the file with the new list. *)
Lemma edit_position_store (position_id : Z) (position_data : PositionData) (s : State) :
  let r := edit_position w position_id position_data s in
  ((forall m : string, fst r <> Return (true, m)) /\
   portfolio (snd r) = portfolio s /\ data_file (snd r) = data_file s) \/
  ((exists m : string, fst r = Return (true, m)) /\
   length (portfolio (snd r)) = length (portfolio s) /\
   map id (portfolio (snd r)) = map id (portfolio s) /\
   data_file (snd r) = portfolio (snd r) :: data_file s).
Proof.
  intros r.
  destruct (find_position position_id (portfolio s) 0) as [[i position]|] eqn:Hfind.
  - destruct (edit_position_cases w position_id position_data s i position Hfind)
      as [(Hp & Hd & Hfail) | (d & t & q & pp & f & _ & _ & Hok & Hp & Hd)];
      fold r in Hp, Hd.
    + left. auto.
    + right. split; [eexists; exact Hok |]. rewrite Hd, Hp.
      split; [apply length_insert |]. split; [| reflexivity].
      apply find_position_lookup in Hfind as (_ & Hl & _).
      rewrite Nat.sub_0_r in Hl.
      rewrite list_fmap_insert. simpl.
      apply list_insert_id. rewrite list_lookup_fmap, Hl. reflexivity.
  - left. subst r. unfold edit_position, bind, gets. simpl. rewrite Hfind. simpl.
    repeat split. discriminate.
Qed.

(** A request either leaves the portfolio and the file alone, or answers
    with a success and rewrites the file with the new portfolio. *)
Lemma handle_store (request : App.Request) (s : State) :
  let r := App.handle w request s in
  (portfolio (snd r) = portfolio s /\ data_file (snd r) = data_file s) \/
  ((exists m : string, fst r = App.Status true (App.Text m)) /\
   data_file (snd r) = portfolio (snd r) :: data_file s).
Proof.
  destruct request as [| data | position_id data | position_id | |]; simpl.
  - unfold App.get_portfolio.
    pose proof (get_portfolio_data_state s) as Hs.
    destruct (get_portfolio_data w s) as [[rows summary] s1]. simpl in *.
    subst s1. left. auto.
  - unfold App.add_position, App.guarded.
    destruct (add_position_cases w data s)
      as [(d & t & q & pp & f & price & _ & _ & ->) | (Hfail & Hp & Hd & _)].
    + right. simpl. split; [eexists |]; reflexivity.
    + left. destruct (add_position w data s) as [[[ok m]|e] s1]; simpl in *; auto.
  - unfold App.edit_position, App.guarded.
    destruct (edit_position_store (Z.of_nat position_id) data s)
      as [(_ & Hp & Hd) | ((m & Hok) & _ & _ & Hd)].
    + left. destruct (edit_position w _ data s) as [[[ok m]|e] s1]; simpl in *; auto.
    + right. destruct (edit_position w _ data s) as [[[ok m']|e] s1]; simpl in *;
        [| discriminate].
      injection Hok as -> ->. split; [eexists; reflexivity | exact Hd].
  - unfold App.delete_position, App.guarded. rewrite delete_position_cases.
    destruct (find_position _ (portfolio s) 0) as [[i position]|]; simpl.
    + right. split; [eexists |]; reflexivity.
    + left. auto.
  - left. auto.
  - unfold App.export_data. rewrite export_data_closed. simpl. left. auto.
Qed.

Lemma handle_refusal (request : App.Request) (s : State) (message : App.Message) :
  fst (App.handle w request s) = App.Status false message ->
  portfolio (snd (App.handle w request s)) = portfolio s /\
  data_file (snd (App.handle w request s)) = data_file s.
Proof.
  intros Hfalse.
  destruct (handle_store request s) as [H | ((m & Hok) & _)]; [exact H |].
  rewrite Hok in Hfalse. discriminate.
Qed.

Lemma handle_feed_steps (request : App.Request) (s : State) :
  rtc (feed_step w) (feed s) (feed (snd (App.handle w request s))).
Proof.
  destruct request as [| data | position_id data | position_id | |]; simpl.
  - unfold App.get_portfolio.
    pose proof (get_portfolio_data_state s) as Hs.
    destruct (get_portfolio_data w s) as [[rows summary] s1]. simpl in *.
    subst s1. simpl. apply resolve_prices_steps.
  - unfold App.add_position, App.guarded.
    destruct (add_position_cases w data s)
      as [(d & t & q & pp & f & price & _ & _ & ->) | (_ & _ & _ & Hfd)].
    + simpl. eapply rtc_l; [apply step_price |]. apply rtc_once. apply step_now.
    + assert (Hgoal : rtc (feed_step w) (feed s) (feed (snd (add_position w data s)))).
      { destruct Hfd as [-> | (t & ->)]; [apply rtc_refl |].
        apply rtc_once. apply step_price. }
      destruct (add_position w data s) as [[[ok m]|e] s1]; exact Hgoal.
  - unfold App.edit_position, App.guarded.
    assert (Hgoal : rtc (feed_step w) (feed s)
                      (feed (snd (edit_position w (Z.of_nat position_id) data s)))).
    { destruct (edit_position_feed w (Z.of_nat position_id) data s) as [-> | (t & ->)];
        [apply rtc_refl |].
      apply rtc_once. apply step_price. }
    destruct (edit_position w _ data s) as [[[ok m]|e] s1]; exact Hgoal.
  - unfold App.delete_position, App.guarded. rewrite delete_position_cases.
    destruct (find_position _ (portfolio s) 0) as [[i position]|]; apply rtc_refl.
  - apply rtc_once. apply step_refresh.
  - unfold App.export_data. rewrite export_data_closed. simpl.
    rewrite get_portfolio_data_state. simpl.
    eapply rtc_r; [apply resolve_prices_steps | apply step_now].
Qed.

Lemma serve_feed_steps (requests : list App.Request) :
  forall s : State, rtc (feed_step w) (feed s) (feed (App.serve w requests s)).
Proof.
  induction requests as [| request rest IH]; intros s; simpl; [apply rtc_refl |].
  eapply rtc_trans; [apply handle_feed_steps | apply IH].
Qed.

End WebRequests.

(** ** The requests of the Flask edition *)

(** X5.  When [add_position] succeeds, the portfolio is the old one with one
    position appended: its id is the old length plus one, its ticker is the
    requested one in upper case, its other fields are those of the request;
    the file is rewritten with the new list, and the price that validated the
    ticker is in the cache. *)
Theorem add_position_appends
  (w : PriceCache.World) (position_data : Web.PositionData) (s : Web.State)
  (m : string) :
  fst (Web.add_position w position_data s) = Return (true, m) ->
  let s' := snd (Web.add_position w position_data s) in
  exists (position : Web.Position) (t : string),
    Web.portfolio s' = Web.portfolio s ++ [position] /\
    Web.data_file s' = Web.portfolio s' :: Web.data_file s /\
    Web.id position = (Z.of_nat (length (Web.portfolio s)) + 1)%Z /\
    Web.pd_ticker position_data = Some t /\
    Web.ticker position = upper t /\
    Web.pd_description position_data = Some (Web.description position) /\
    Web.pd_quantity position_data = Some (Web.quantity position) /\
    Web.pd_purchase_price position_data = Some (Web.purchase_price position) /\
    Web.pd_fees position_data = Some (Web.fees position) /\
    is_Some (PriceCache.price_cache (Web.feed s') !! upper t).
Proof.
  intros Hok s'. subst s'.
  destruct (add_position_cases w position_data s)
    as [(d & t & q & pp & f & price & -> & Hprice & Hr) | (Hfail & _)];
    [| destruct (Hfail m Hok)].
  cbv zeta in Hprice, Hr. rewrite Hr. simpl.
  eexists. exists t. repeat split.
  destruct (get_current_price_cases w (upper t) (Web.feed s))
    as [(_ & Hc & ->) | (_ & [(p & _ & _ & ->) | (_ & Hc & _)])]; simpl.
  - rewrite <- Hc, Hprice. eauto.
  - rewrite lookup_insert_eq. eauto.
  - congruence.
Qed.

Lemma add_position_appends_witness :
  exists position : Web.Position,
    Web.portfolio
      (snd (Web.add_position (Samples.quoting 12) Samples.apple_request
              (Samples.holding [Samples.second])))
      = [Samples.second; position] /\
    Web.id position = 2%Z.
Proof.
  destruct (add_position_appends (Samples.quoting 12) Samples.apple_request
              (Samples.holding [Samples.second]) _ eq_refl)
    as (position & t & Hp & _ & Hid & _).
  exists position. split; [exact Hp | exact Hid].
Defined.

(** X6.  Whatever the request, the manager either leaves the portfolio and
    the data file as they were, or answers with a success and has rewritten
    the file with the new portfolio; an answer with [success] false (a
    refusal or a caught exception) is always of the first kind. *)
Theorem request_is_all_or_nothing
  (w : PriceCache.World) (request : App.Request) (s : Web.State) :
  let r := App.handle w request s in
  ((Web.portfolio (snd r) = Web.portfolio s /\ Web.data_file (snd r) = Web.data_file s) \/
   ((exists m : string, fst r = App.Status true (App.Text m)) /\
    Web.data_file (snd r) = Web.portfolio (snd r) :: Web.data_file s)) /\
  (forall message : App.Message,
      fst r = App.Status false message ->
      Web.portfolio (snd r) = Web.portfolio s /\ Web.data_file (snd r) = Web.data_file s).
Proof.
  intros r. split; [apply handle_store |].
  intros message. apply handle_refusal.
Qed.

Lemma request_is_all_or_nothing_witness :
  Web.portfolio
    (snd (App.handle (Samples.quoting 12)
            (App.PostPosition
               {| Web.pd_description := Some "Apple"%string;
                  Web.pd_ticker := Some "aapl"%string;
                  Web.pd_quantity := None; Web.pd_purchase_price := Some 10%Q;
                  Web.pd_fees := Some 0%Q |})
            (Samples.holding [Samples.second])))
    = [Samples.second].
Proof.
  eapply (proj2 (request_is_all_or_nothing (Samples.quoting 12) _
                   (Samples.holding [Samples.second]))).
  reflexivity.
Defined.

(** X7.  After any sequence of requests, the portfolio in memory is what a
    manager started on the data file would load: the last list written, or,
    when nothing was written, the list the manager itself loaded. *)
Theorem restart_restores_portfolio
  (w : PriceCache.World) (file : App.DataFile) (requests : list App.Request) :
  let s := App.serve w requests (App.PortfolioManager file) in
  App.load_data (App.on_disk file s) = Web.portfolio s.
Proof.
  intros s. subst s.
  assert (Hinv : forall s : Web.State,
             App.load_data (App.on_disk file s) = Web.portfolio s ->
             App.load_data (App.on_disk file (App.serve w requests s))
               = Web.portfolio (App.serve w requests s)).
  { induction requests as [| request rest IH]; intros s Hs; simpl; [exact Hs |].
    apply IH.
    destruct (handle_store w request s) as [(Hp & Hd) | (_ & Hd)].
    - unfold App.on_disk in *. rewrite Hd, Hp. exact Hs.
    - unfold App.on_disk. rewrite Hd. reflexivity. }
  apply Hinv. reflexivity.
Qed.

(** X8.  If no stored position has the id, [edit_position] and
    [delete_position] answer "Position not found" and the whole state is as
    before: nothing stored, nothing written, no price asked. *)
Theorem unknown_id_changes_nothing
  (w : PriceCache.World) (position_id : Z) (position_data : Web.PositionData)
  (s : Web.State) :
  position_id ∉ map Web.id (Web.portfolio s) ->
  Web.edit_position w position_id position_data s
    = (Return (false, "Position not found"%string), s) /\
  Web.delete_position position_id s
    = (Return (false, "Position not found"%string), s).
Proof.
  intros Hnot. apply (find_position_None _ _ 0%nat) in Hnot.
  rewrite delete_position_cases.
  unfold Web.edit_position, Web.bind, Web.gets. simpl. rewrite Hnot. auto.
Qed.

Lemma unknown_id_changes_nothing_witness :
  Web.delete_position 1 (Samples.holding [Samples.second])
    = (Return (false, "Position not found"%string), Samples.holding [Samples.second]).
Proof.
  apply (unknown_id_changes_nothing Samples.provider_down 1 Samples.apple_request
           (Samples.holding [Samples.second])).
  simpl. apply not_elem_of_cons. split; [discriminate | apply not_elem_of_nil].
Defined.

Section WebIds.
Import PriceCache Web.
Variable w : World.

Lemma handle_keeps_sequential (request : App.Request) (s : State) :
  (forall i : nat, request <> App.DeletePosition i) ->
  App.sequential (portfolio s) ->
  App.sequential (portfolio (snd (App.handle w request s))).
Proof.
  intros Hnodel Hseq.
  destruct request as [| data | position_id data | position_id | |]; simpl.
  - unfold App.get_portfolio.
    pose proof (get_portfolio_data_state w s) as Hs.
    destruct (get_portfolio_data w s) as [[rows summary] s1]. simpl in *.
    subst s1. exact Hseq.
  - unfold App.add_position, App.guarded.
    destruct (add_position_cases w data s)
      as [(d & t & q & pp & f & price & _ & _ & ->) | (_ & Hp & _)].
    + simpl. unfold App.sequential in *.
      rewrite map_app, length_app, Nat.add_1_r, seq_S, map_app, Hseq. simpl.
      do 2 f_equal. lia.
    + assert (Hgoal : App.sequential (portfolio (snd (add_position w data s))))
        by (rewrite Hp; exact Hseq).
      destruct (add_position w data s) as [[[ok m]|e] s1]; exact Hgoal.
  - unfold App.edit_position, App.guarded.
    assert (Hgoal : App.sequential
                      (portfolio (snd (edit_position w (Z.of_nat position_id) data s)))).
    { destruct (edit_position_store w (Z.of_nat position_id) data s)
        as [(_ & Hp & _) | (_ & Hlen & Hids & _)].
      - rewrite Hp. exact Hseq.
      - unfold App.sequential in *. rewrite Hids, Hlen. exact Hseq. }
    destruct (edit_position w _ data s) as [[[ok m]|e] s1]; exact Hgoal.
  - destruct (Hnodel position_id eq_refl).
  - exact Hseq.
  - unfold App.export_data. rewrite export_data_closed. exact Hseq.
Qed.

End WebIds.

(** X9.  As long as no position is deleted, the ids of the portfolio are 1,
    2, ..., n in order, hence pairwise distinct: a manager started without a
    data file keeps this through any adds, edits, reads, refreshes and
    exports. *)
Theorem ids_sequential_without_deletes
  (w : PriceCache.World) (requests : list App.Request) :
  Forall (fun request => forall i : nat, request <> App.DeletePosition i) requests ->
  let s := App.serve w requests (App.PortfolioManager App.Missing) in
  map Web.id (Web.portfolio s) = map Z.of_nat (seq 1 (length (Web.portfolio s))) /\
  NoDup (map Web.id (Web.portfolio s)).
Proof.
  intros Hnodel s. subst s.
  assert (Hinv : forall s : Web.State,
             App.sequential (Web.portfolio s) ->
             App.sequential (Web.portfolio (App.serve w requests s))).
  { induction Hnodel as [| request rest Hreq _ IH]; intros s Hs; simpl; [exact Hs |].
    apply IH. apply handle_keeps_sequential; assumption. }
  assert (Hseq : App.sequential
                   (Web.portfolio (App.serve w requests (App.PortfolioManager App.Missing))))
    by (apply Hinv; reflexivity).
  split; [exact Hseq |].
  rewrite Hseq. apply NoDup_fmap_2; [intros x y; apply Nat2Z.inj | apply NoDup_seq].
Qed.

Lemma ids_sequential_without_deletes_witness :
  map Web.id
    (Web.portfolio
       (App.serve (Samples.quoting 12) Samples.two_adds (App.PortfolioManager App.Missing)))
    = [1; 2]%Z.
Proof.
  destruct (ids_sequential_without_deletes (Samples.quoting 12) Samples.two_adds)
    as [H _].
  - repeat constructor; discriminate.
  - exact H.
Defined.

(** X10.  The id of a new position is the length of the list plus one, so
    it can repeat an id that is still stored (after a deletion): then the
    new position is stored under the same id as the older one, and that id
    still finds the older position, which is the one an edit or a delete by
    this id reaches. *)
Theorem add_position_reuses_id
  (w : PriceCache.World) (position_data : Web.PositionData) (s : Web.State)
  (m : string) (j : nat) (older : Web.Position) :
  fst (Web.add_position w position_data s) = Return (true, m) ->
  Web.find_position (Z.of_nat (length (Web.portfolio s)) + 1) (Web.portfolio s) 0
    = Some (j, older) ->
  let s' := snd (Web.add_position w position_data s) in
  exists added : Web.Position,
    Web.portfolio s' !! length (Web.portfolio s) = Some added /\
    Web.id added = Web.id older /\
    (j < length (Web.portfolio s))%nat /\
    Web.find_position (Web.id added) (Web.portfolio s') 0 = Some (j, older) /\
    ~ NoDup (map Web.id (Web.portfolio s')).
Proof.
  intros Hok Hfind s'. subst s'.
  destruct (add_position_cases w position_data s)
    as [(d & t & q & pp & f & price & -> & Hprice & Hr) | (Hfail & _)];
    [| destruct (Hfail m Hok)].
  cbv zeta in Hr. rewrite Hr. simpl.
  pose proof (find_position_lookup _ _ _ _ _ Hfind) as (_ & Hl & Hid).
  rewrite Nat.sub_0_r in Hl.
  pose proof (lookup_lt_Some _ _ _ Hl) as Hlt.
  eexists. split; [apply list_lookup_middle; reflexivity |].
  simpl. split; [symmetry; exact Hid |]. split; [exact Hlt |].
  split; [rewrite find_position_app, Hfind; reflexivity |].
  rewrite map_app. simpl. intros Hnodup.
  apply NoDup_app in Hnodup as (_ & Hdisj & _).
  apply (Hdisj (Web.id older)).
  - apply list_elem_of_fmap. exists older. split; [reflexivity |].
    eapply list_elem_of_lookup_2. exact Hl.
  - rewrite Hid. apply list_elem_of_here.
Qed.

Lemma add_position_reuses_id_witness :
  ~ NoDup
      (map Web.id
         (Web.portfolio
            (snd (Web.add_position (Samples.quoting 12) Samples.apple_request
                    (Samples.holding [Samples.second]))))).
Proof.
  destruct (add_position_reuses_id (Samples.quoting 12) Samples.apple_request
              (Samples.holding [Samples.second]) _ 0%nat Samples.second
              eq_refl eq_refl) as (added & _ & _ & _ & _ & H).
  exact H.
Defined.

(** X11.  When the id of a new position is not in use, deleting by that id
    right after the add removes the new position again: the portfolio is the
    one from before the add. *)
Theorem add_then_delete
  (w : PriceCache.World) (position_data : Web.PositionData) (s : Web.State)
  (m : string) :
  fst (Web.add_position w position_data s) = Return (true, m) ->
  (Z.of_nat (length (Web.portfolio s)) + 1)%Z ∉ map Web.id (Web.portfolio s) ->
  let s1 := snd (Web.add_position w position_data s) in
  let r := Web.delete_position (Z.of_nat (length (Web.portfolio s)) + 1) s1 in
  fst r = Return (true, "Position deleted successfully"%string) /\
  Web.portfolio (snd r) = Web.portfolio s /\
  Web.data_file (snd r) = Web.portfolio s :: Web.portfolio s1 :: Web.data_file s.
Proof.
  intros Hok Hfree s1 r. subst r s1.
  destruct (add_position_cases w position_data s)
    as [(d & t & q & pp & f & price & -> & Hprice & Hr) | (Hfail & _)];
    [| destruct (Hfail m Hok)].
  cbv zeta in Hr. rewrite Hr. clear Hr.
  rewrite delete_position_cases. simpl.
  apply (find_position_None _ _ 0%nat) in Hfree.
  rewrite find_position_app, Hfree. simpl. rewrite Z.eqb_refl. simpl.
  rewrite delete_middle, app_nil_r. auto.
Qed.

Lemma add_then_delete_witness :
  Web.portfolio
    (snd (Web.delete_position 2
            (snd (Web.add_position (Samples.quoting 12) Samples.apple_request
                    (Samples.holding [Samples.apple])))))
    = [Samples.apple].
Proof.
  apply (add_then_delete (Samples.quoting 12) Samples.apple_request
           (Samples.holding [Samples.apple]) _ eq_refl).
  simpl. apply not_elem_of_cons. split; [discriminate | apply not_elem_of_nil].
Defined.

(** X12.  When some stored position has the id, [delete_position] removes
    the first such position and no other: the rest keeps its order, the list
    is one shorter, the file is rewritten with it, and the caches are not
    touched. *)
Theorem delete_removes_first (position_id : Z) (s : Web.State) :
  position_id ∈ map Web.id (Web.portfolio s) ->
  exists (i : nat) (position : Web.Position),
    Web.portfolio s !! i = Some position /\
    Web.id position = position_id /\
    (forall (j : nat) (other : Web.Position),
        (j < i)%nat -> Web.portfolio s !! j = Some other -> Web.id other <> position_id) /\
    Web.delete_position position_id s =
      (Return (true, "Position deleted successfully"%string),
       {| Web.portfolio := delete i (Web.portfolio s); Web.feed := Web.feed s;
          Web.data_file := delete i (Web.portfolio s) :: Web.data_file s |}) /\
    S (length (delete i (Web.portfolio s))) = length (Web.portfolio s).
Proof.
  intros Hin.
  destruct (Web.find_position position_id (Web.portfolio s) 0)
    as [[i position]|] eqn:Hfind.
  - pose proof (find_position_lookup _ _ _ _ _ Hfind) as (_ & Hl & Hid).
    rewrite Nat.sub_0_r in Hl.
    exists i, position. split; [exact Hl |]. split; [exact Hid |].
    split.
    { intros j other Hj. eapply find_position_first; [exact Hfind | lia]. }
    split; [rewrite delete_position_cases, Hfind; reflexivity |].
    rewrite length_delete by eauto.
    pose proof (lookup_lt_Some _ _ _ Hl). lia.
  - apply find_position_None in Hfind. contradiction.
Qed.

Lemma delete_removes_first_witness :
  exists i : nat,
    Web.portfolio (snd (Web.delete_position 1
                          (Samples.holding [Samples.apple; Samples.short])))
      = delete i [Samples.apple; Samples.short] /\
    Web.portfolio (Samples.holding [Samples.apple; Samples.short]) !! i
      = Some Samples.apple.
Proof.
  destruct (delete_removes_first 1 (Samples.holding [Samples.apple; Samples.short]))
    as (i & position & Hl & _ & Hfirst & Hr & _).
  - apply list_elem_of_here.
  - exists i. rewrite Hr. split; [reflexivity |].
    destruct i as [| i]; [reflexivity |].
    exfalso. apply (Hfirst 0%nat Samples.apple); [lia | reflexivity | reflexivity].
Defined.

(** ** Reading the portfolio *)

Section WebReading.
Import PriceCache Web.

Lemma value_rows_field {B : Type} (of_row : Row -> B) (of_position : Position -> B) :
  (forall (position : Position) (o : option Q),
      of_row (value_row position o) = of_position position) ->
  forall (ps : list Position) (prices : list (option Q)),
    length prices = length ps ->
    map of_row (zip_with value_row ps prices) = map of_position ps.
Proof.
  intros Hfield. induction ps as [| p rest IH]; intros [| o os] Hlen; simpl in *;
    try discriminate; [reflexivity |].
  rewrite Hfield, IH by congruence. reflexivity.
Qed.

Lemma Qsum_cons (x : Q) (l : list Q) : (Qsum (x :: l) == x + Qsum l)%Q.
Proof.
  unfold Qsum. cbn [fold_left].
  assert (Hacc : forall (l : list Q) (a : Q),
             (fold_left Qplus l a == a + fold_left Qplus l 0)%Q).
  { clear. induction l as [| y l IH]; intros a; cbn [fold_left]; [ring |].
    rewrite (IH (a + y)%Q), (IH (0 + y)%Q). ring. }
  rewrite Hacc. ring.
Qed.

(** With every price resolved, the P&L column sums to the value column minus
    the cost column. *)
Lemma pl_column_sum (ps : list Position) :
  forall prices : list (option Q),
    length prices = length ps ->
    Forall (fun row => is_Some (row_current_price row)) (zip_with value_row ps prices) ->
    (Qsum (omap row_pl (zip_with value_row ps prices))
       == Qsum (resolved_values ps prices) - Qsum (costs ps))%Q.
Proof.
  induction ps as [| p rest IH]; intros [| o os] Hlen Hall;
    try discriminate Hlen; [reflexivity |].
  injection Hlen as Hlen.
  change (zip_with value_row (p :: rest) (o :: os))
    with (value_row p o :: zip_with value_row rest os) in Hall.
  apply Forall_cons in Hall as [Ho Hall].
  destruct o as [price|]; [| destruct Ho; discriminate].
  change (omap row_pl (zip_with value_row (p :: rest) (Some price :: os)))
    with ((quantity p * price - total_cost p)%Q
            :: omap row_pl (zip_with value_row rest os)).
  change (resolved_values (p :: rest) (Some price :: os))
    with ((quantity p * price)%Q :: resolved_values rest os).
  change (costs (p :: rest)) with (total_cost p :: costs rest).
  rewrite !Qsum_cons, (IH os Hlen Hall). ring.
Qed.

Lemma value_column (ps : list Position) :
  forall prices : list (option Q),
    omap row_current_value (zip_with value_row ps prices) = resolved_values ps prices.
Proof.
  unfold resolved_values.
  induction ps as [| p rest IH]; intros [| o os]; simpl; try reflexivity.
  destruct o as [price|]; simpl; rewrite IH; reflexivity.
Qed.

End WebReading.

(** X13.  [get_portfolio_data] only reads the store: the portfolio and the
    data file are unchanged; there is one row per position, in order, with
    the position's id, description, ticker, numbers and date; the clock is
    read once per position; and the provider is asked at most once per
    position, and only about tickers of the portfolio. *)
Theorem get_portfolio_data_only_reads (w : PriceCache.World) (s : Web.State) :
  let r := Web.get_portfolio_data w s in
  let rows := fst (fst r) in
  Web.portfolio (snd r) = Web.portfolio s /\
  Web.data_file (snd r) = Web.data_file s /\
  map Web.row_id rows = map Web.id (Web.portfolio s) /\
  map Web.row_description rows = map Web.description (Web.portfolio s) /\
  map Web.row_ticker rows = map Web.ticker (Web.portfolio s) /\
  map Web.row_quantity rows = map Web.quantity (Web.portfolio s) /\
  map Web.row_purchase_price rows = map Web.purchase_price (Web.portfolio s) /\
  map Web.row_fees rows = map Web.fees (Web.portfolio s) /\
  map Web.row_date_added rows = map Web.date_added (Web.portfolio s) /\
  PriceCache.clock_reads (Web.feed (snd r))
    = (PriceCache.clock_reads (Web.feed s) + length (Web.portfolio s))%nat /\
  exists asked : list string,
    PriceCache.queries (Web.feed (snd r)) = asked ++ PriceCache.queries (Web.feed s) /\
    (length asked <= length (Web.portfolio s))%nat /\
    asked ⊆ map Web.ticker (Web.portfolio s).
Proof.
  intros r rows. subst rows r.
  rewrite get_portfolio_data_state, get_portfolio_data_closed. simpl.
  pose proof (resolve_prices_length w (map Web.ticker (Web.portfolio s)) (Web.feed s))
    as Hlen.
  rewrite length_map in Hlen.
  do 2 (split; [reflexivity |]).
  do 7 (split; [apply value_rows_field;
                [intros position [price|]; reflexivity | exact Hlen] |]).
  pose proof (resolve_prices_counters w (map Web.ticker (Web.portfolio s)) (Web.feed s))
    as (Hc & asked & Hq & Hn & Hsub).
  rewrite length_map in Hc, Hn.
  split; [exact Hc |]. exists asked. auto.
Qed.

(** X14.  After the refresh route, the next [get_portfolio_data] asks the
    provider about every ticker of the portfolio at least once. *)
Theorem refresh_then_read_asks_every_ticker
  (w : PriceCache.World) (s : Web.State) (t : string) :
  t ∈ map Web.ticker (Web.portfolio s) ->
  let s1 := snd (App.refresh_prices s) in
  exists asked : list string,
    PriceCache.queries (Web.feed (snd (Web.get_portfolio_data w s1)))
      = asked ++ PriceCache.queries (Web.feed s) /\
    t ∈ asked.
Proof.
  intros Hin s1. subst s1.
  rewrite get_portfolio_data_state. simpl.
  destruct (resolve_prices_asks w (map Web.ticker (Web.portfolio s))
              (PriceCache.refresh_all_prices (Web.feed s)) []
              (PriceCache.queries (Web.feed s)))
    as (asked & Hq & _ & Hall).
  - reflexivity.
  - intros t'. simpl. rewrite lookup_empty. intros [x Hx]. discriminate.
  - exists asked. split; [exact Hq | apply Hall; exact Hin].
Qed.

Lemma refresh_then_read_asks_every_ticker_witness :
  exists asked : list string,
    PriceCache.queries
      (Web.feed
         (snd (Web.get_portfolio_data (Samples.quoting 12)
                 (snd (App.refresh_prices
                         {| Web.portfolio := [Samples.apple];
                            Web.feed := Samples.cached_feed;
                            Web.data_file := [] |})))))
      = asked ++ [] /\
    "AAPL"%string ∈ asked.
Proof.
  apply (refresh_then_read_asks_every_ticker (Samples.quoting 12)
           {| Web.portfolio := [Samples.apple]; Web.feed := Samples.cached_feed;
              Web.data_file := [] |} "AAPL").
  apply list_elem_of_here.
Defined.

(** X15.  The totals of the summary are the sums of the columns of the rows:
    [total_investment] of the cost column and [total_current_value] of the
    value column (rows without a price have no value); when every price
    resolved and the total value is positive, [total_pl] is the sum of the
    P&L column, as rationals. *)
Theorem summary_sums_the_rows (w : PriceCache.World) (s : Web.State) :
  let r := fst (Web.get_portfolio_data w s) in
  Web.total_investment (snd r) = Qsum (map Web.row_total_cost (fst r)) /\
  Web.total_current_value (snd r) = Qsum (omap Web.row_current_value (fst r)) /\
  (Forall (fun row => is_Some (Web.row_current_price row)) (fst r) ->
   (0 < Web.total_current_value (snd r))%Q ->
   (Web.total_pl (snd r) == Qsum (omap Web.row_pl (fst r)))%Q).
Proof.
  intros r. subst r. rewrite get_portfolio_data_closed. simpl.
  pose proof (resolve_prices_length w (map Web.ticker (Web.portfolio s)) (Web.feed s))
    as Hlen.
  rewrite length_map in Hlen.
  split.
  { f_equal. symmetry. apply value_rows_field; [| exact Hlen].
    intros position [price|]; reflexivity. }
  split; [rewrite value_column; reflexivity |].
  intros Hall Hpos. apply Qgtb_true in Hpos. rewrite Hpos.
  rewrite pl_column_sum by assumption. reflexivity.
Qed.

Lemma summary_sums_the_rows_witness :
  let r := fst (Web.get_portfolio_data (Samples.quoting 12)
                  (Samples.holding [Samples.apple; Samples.second])) in
  (Web.total_pl (snd r) == Qsum (omap Web.row_pl (fst r)))%Q.
Proof.
  apply (summary_sums_the_rows (Samples.quoting 12)
           (Samples.holding [Samples.apple; Samples.second])).
  - repeat constructor; eexists; reflexivity.
  - vm_compute. reflexivity.
Defined.

(** ** The Tk edition, command by command *)

Section DesktopDisplay.
Import PriceCache Desktop.
Variable w : World.

Lemma display_loop_closed (ps : list Position) :
  forall (rows : list TreeRow) (investment current : Q) (s : Feed),
    let prices := fst (resolve_prices w (map ticker ps) s) in
    display_loop w ps (rows, investment, current) s =
      (rows ++ zip_with display_row ps prices,
       fold_left Qplus (map total_cost ps) investment,
       fold_left Qplus
         (omap (fun '(position, price) =>
                  match price with
                  | Some current_price => Some (quantity position * current_price)%Q
                  | None => None
                  end) (zip ps prices)) current,
       snd (resolve_prices w (map ticker ps) s)).
Proof.
  induction ps as [| position rest IH]; intros rows investment current s; simpl.
  - rewrite app_nil_r. reflexivity.
  - destruct (get_current_price w (ticker position) s) as [o s1].
    rewrite IH. clear IH.
    destruct (resolve_prices w (map ticker rest) s1) as [os s2]. simpl.
    rewrite <- app_assoc. simpl.
    destruct o as [price|]; reflexivity.
Qed.

Lemma update_display_closed (s : State) :
  let prices := fst (resolve_prices w (map ticker (portfolio s)) (feed s)) in
  update_display w s =
    {| portfolio := portfolio s;
       feed := snd (resolve_prices w (map ticker (portfolio s)) (feed s));
       data_file := data_file s;
       tree := zip_with display_row (portfolio s) prices;
       summary :=
         Some (summarize
                 (Qsum (map total_cost (portfolio s)))
                 (Qsum (omap (fun '(position, price) =>
                                match price with
                                | Some current_price =>
                                    Some (quantity position * current_price)%Q
                                | None => None
                                end) (zip (portfolio s) prices))));
       status_var := status_var s |}.
Proof.
  unfold update_display. rewrite display_loop_closed. reflexivity.
Qed.

Lemma update_display_in_step (s : State) : display_in_step (update_display w s).
Proof.
  rewrite update_display_closed. unfold display_in_step. simpl.
  rewrite length_zip_with.
  pose proof (resolve_prices_length w (map ticker (portfolio s)) (feed s)) as Hlen.
  rewrite length_map in Hlen. lia.
Qed.

Lemma update_display_store (s : State) :
  portfolio (update_display w s) = portfolio s /\
  data_file (update_display w s) = data_file s /\
  rtc (feed_step w) (feed s) (feed (update_display w s)).
Proof.
  rewrite update_display_closed. simpl. repeat split. apply resolve_prices_steps.
Qed.

Lemma refresh_loop_closed (ps : list Position) :
  forall s : Feed, refresh_loop w ps s = snd (resolve_prices w (map ticker ps) s).
Proof.
  induction ps as [| position rest IH]; intros s; simpl; [reflexivity |].
  rewrite IH.
  destruct (get_current_price w (ticker position) s) as [o s1]. simpl.
  destruct (resolve_prices w (map ticker rest) s1) as [os s2]. reflexivity.
Qed.

Lemma export_loop_closed (ps : list Position) :
  forall s : Feed,
    export_loop w ps s =
      (zip_with csv_row ps (fst (resolve_prices w (map ticker ps) s)),
       snd (resolve_prices w (map ticker ps) s)).
Proof.
  induction ps as [| position rest IH]; intros s; simpl; [reflexivity |].
  destruct (get_current_price w (ticker position) s) as [o s1].
  rewrite IH.
  destruct (resolve_prices w (map ticker rest) s1) as [os s2]. reflexivity.
Qed.

Local Arguments update_display : simpl never.

(** After the redraw that ends a command: the store is the one the command
    built, and the tree has a row per position. *)
Ltac after_redraw :=
  match goal with
  | |- context [update_display w ?x] =>
      destruct (update_display_store x) as (Hp & Hd & _);
      pose proof (update_display_in_step x) as Hstep;
      unfold display_in_step in *; simpl in *;
      rewrite ?Hp, ?Hd; rewrite ?Hp in Hstep
  end.

(** What a command does to the store and to the display: the portfolio and
    the file are untouched and so is the tree, or the file is rewritten with
    the new portfolio and the tree is redrawn from it. *)
Lemma run_command_store (c : Command) (s : State) :
  let s' := snd (run_command w c s) in
  (portfolio s' = portfolio s /\ data_file s' = data_file s /\
   (tree s' = tree s \/ display_in_step s')) \/
  (fst (run_command w c s) = Done /\
   data_file s' = portfolio s' :: data_file s /\ display_in_step s').
Proof.
  destruct c as [dialog_result | selected dialog_result | selected confirmed | |];
    simpl.
  - unfold add_position.
    destruct dialog_result as [result|]; [| left; auto].
    destruct (get_current_price w _ (feed s)) as [[price|] fd]; [| left; auto].
    right. simpl. split; [reflexivity |]. after_redraw. auto.
  - unfold edit_position.
    destruct selected as [index|]; [| left; auto].
    destruct (portfolio s !! index) as [position|]; [| left; auto].
    destruct (dialog_result position) as [result|]; [| left; auto].
    destruct (get_current_price w _ (feed s)) as [[price|] fd]; [| left; auto].
    right. simpl. split; [reflexivity |]. after_redraw. auto.
  - unfold delete_position.
    destruct selected as [index|]; [| left; auto].
    destruct confirmed; [| left; auto].
    destruct (portfolio s !! index) as [position|]; [| left; auto].
    right. simpl. split; [reflexivity |]. after_redraw. auto.
  - left. unfold refresh_prices. simpl. after_redraw. auto.
  - left. unfold export_data. simpl. rewrite export_loop_closed. simpl. auto.
Qed.

Lemma run_command_feed_steps (c : Command) (s : State) :
  rtc (feed_step w) (feed s) (feed (snd (run_command w c s))).
Proof.
  destruct c as [dialog_result | selected dialog_result | selected confirmed | |];
    simpl.
  - unfold add_position.
    destruct dialog_result as [result|]; [| apply rtc_refl].
    destruct (get_current_price w _ (feed s)) as [o fd] eqn:Hprice.
    assert (Hfd : rtc (feed_step w) (feed s) fd).
    { replace fd with (snd (get_current_price w (upper (ticker result)) (feed s)))
        by (rewrite Hprice; reflexivity).
      apply rtc_once. constructor. }
    destruct o as [price|]; [| exact Hfd].
    simpl.
    match goal with
    | |- context [update_display w ?x] =>
        destruct (update_display_store x) as (_ & _ & Hsteps)
    end.
    simpl in Hsteps.
    eapply rtc_trans; [exact Hfd |].
    eapply rtc_l; [| exact Hsteps]. apply (step_now w fd).
  - unfold edit_position.
    destruct selected as [index|]; [| apply rtc_refl].
    destruct (portfolio s !! index) as [position|]; [| apply rtc_refl].
    destruct (dialog_result position) as [result|]; [| apply rtc_refl].
    destruct (get_current_price w _ (feed s)) as [o fd] eqn:Hprice.
    assert (Hfd : rtc (feed_step w) (feed s) fd).
    { replace fd with (snd (get_current_price w (upper (ticker result)) (feed s)))
        by (rewrite Hprice; reflexivity).
      apply rtc_once. constructor. }
    destruct o as [price|]; [| exact Hfd].
    simpl.
    match goal with
    | |- context [update_display w ?x] =>
        destruct (update_display_store x) as (_ & _ & Hsteps)
    end.
    simpl in Hsteps.
    eapply rtc_trans; [exact Hfd |].
    eapply rtc_l; [| exact Hsteps]. apply (step_now w fd).
  - unfold delete_position.
    destruct selected as [index|]; [| apply rtc_refl].
    destruct confirmed; [| apply rtc_refl].
    destruct (portfolio s !! index) as [position|]; [| apply rtc_refl].
    simpl.
    match goal with
    | |- context [update_display w ?x] =>
        destruct (update_display_store x) as (_ & _ & Hsteps)
    end.
    exact Hsteps.
  - unfold refresh_prices. simpl.
    match goal with
    | |- context [update_display w ?x] =>
        destruct (update_display_store x) as (_ & _ & Hsteps)
    end.
    simpl in Hsteps.
    eapply rtc_trans; [| exact Hsteps].
    rewrite refresh_loop_closed.
    eapply rtc_l; [apply step_refresh | apply resolve_prices_steps].
  - unfold export_data. simpl. rewrite export_loop_closed. simpl.
    eapply rtc_l; [apply step_now | apply resolve_prices_steps].
Qed.

Lemma run_commands_feed_steps (cs : list Command) :
  forall s : State, rtc (feed_step w) (feed s) (feed (run_commands w cs s)).
Proof.
  induction cs as [| c rest IH]; intros s; simpl; [apply rtc_refl |].
  eapply rtc_trans; [apply run_command_feed_steps | apply IH].
Qed.

Lemma run_commands_in_step (cs : list Command) :
  forall s : State, display_in_step s -> display_in_step (run_commands w cs s).
Proof.
  induction cs as [| c rest IH]; intros s Hs; simpl; [exact Hs |].
  apply IH.
  destruct (run_command_store c s) as [(Hp & _ & [Ht | Hstep]) | (_ & _ & Hstep)];
    try exact Hstep.
  unfold display_in_step in *. rewrite Ht, Hp. exact Hs.
Qed.

Lemma PortfolioTracker_in_step (file : DataFile) :
  display_in_step (PortfolioTracker w file).
Proof.
  unfold PortfolioTracker, refresh_prices.
  match goal with
  | |- context [update_display w ?x] => pose proof (update_display_in_step x) as Hstep
  end.
  exact Hstep.
Qed.

Lemma PortfolioTracker_store (file : DataFile) :
  portfolio (PortfolioTracker w file) = load_data file /\
  data_file (PortfolioTracker w file) = [].
Proof.
  unfold PortfolioTracker, refresh_prices. simpl.
  match goal with
  | |- context [update_display w ?x] =>
      destruct (update_display_store x) as (Hp & Hd & _)
  end.
  simpl in Hp, Hd. rewrite Hp, Hd. auto.
Qed.

End DesktopDisplay.

(** ** Invariants of every run *)

(** X16.  In every state either program can reach from its start, the two
    cache dicts hold exactly the same tickers. *)
Theorem cache_dicts_always_agree (w : PriceCache.World) :
  (forall (file : App.DataFile) (requests : list App.Request),
      PriceCache.dicts_agree
        (Web.feed (App.serve w requests (App.PortfolioManager file)))) /\
  (forall (file : Desktop.DataFile) (commands : list Desktop.Command),
      PriceCache.dicts_agree
        (Desktop.feed
           (Desktop.run_commands w commands (Desktop.PortfolioTracker w file)))).
Proof.
  split; intros file steps.
  - eapply feed_steps_dicts_agree; [apply serve_feed_steps |].
    apply dicts_agree_no_prices.
  - eapply feed_steps_dicts_agree; [apply run_commands_feed_steps |].
    eapply feed_steps_dicts_agree;
      [apply (run_command_feed_steps w Desktop.RefreshPrices) |].
    apply dicts_agree_no_prices.
Qed.

(** X17.  In the Tk edition the tree always has one row per position, from
    the first redraw on and after every command; so an edit or a delete of a
    row selected in the tree never fails on the index. *)
Theorem display_stays_in_step
  (w : PriceCache.World) (file : Desktop.DataFile) (commands : list Desktop.Command) :
  let s := Desktop.run_commands w commands (Desktop.PortfolioTracker w file) in
  length (Desktop.tree s) = length (Desktop.portfolio s) /\
  (forall (index : nat) (dialog_result : Desktop.Position -> option Desktop.Position)
          (confirmed : bool) (e : Exn),
      (index < length (Desktop.tree s))%nat ->
      fst (Desktop.edit_position w (Some index) dialog_result s) <> Desktop.Crash e /\
      fst (Desktop.delete_position w (Some index) confirmed s) <> Desktop.Crash e).
Proof.
  intros s.
  assert (Hstep : Desktop.display_in_step s)
    by (apply run_commands_in_step, PortfolioTracker_in_step).
  split; [exact Hstep |].
  intros index dialog_result confirmed e Hlt.
  unfold Desktop.display_in_step in Hstep. rewrite Hstep in Hlt.
  apply lookup_lt_is_Some in Hlt as [position Hl].
  unfold Desktop.edit_position, Desktop.delete_position. rewrite Hl.
  split.
  - destruct (dialog_result position) as [result|]; [| discriminate].
    destruct (PriceCache.get_current_price w _ _) as [[price|] fd]; discriminate.
  - destruct confirmed; discriminate.
Qed.

Lemma display_stays_in_step_witness :
  fst (Desktop.delete_position Samples.provider_down (Some 0%nat) true
         (Desktop.PortfolioTracker Samples.provider_down
            (Desktop.Stored [Samples.undated])))
    <> Desktop.Crash IndexError.
Proof.
  apply (display_stays_in_step Samples.provider_down
           (Desktop.Stored [Samples.undated]) []).
  - exact (fun _ => None).
  - vm_compute. lia.
Defined.

(** X18.  In the Tk edition too, after any sequence of commands the
    portfolio in memory is what a tracker started on the data file would
    load. *)
Theorem tracker_restart_restores_portfolio
  (w : PriceCache.World) (file : Desktop.DataFile) (commands : list Desktop.Command) :
  let s := Desktop.run_commands w commands (Desktop.PortfolioTracker w file) in
  Desktop.load_data
    (match Desktop.data_file s with
     | [] => file
     | ps :: _ => Desktop.Stored ps
     end) = Desktop.portfolio s.
Proof.
  intros s. subst s.
  assert (Hinv : forall s : Desktop.State,
             Desktop.load_data
               (match Desktop.data_file s with
                | [] => file
                | ps :: _ => Desktop.Stored ps
                end) = Desktop.portfolio s ->
             Desktop.load_data
               (match Desktop.data_file (Desktop.run_commands w commands s) with
                | [] => file
                | ps :: _ => Desktop.Stored ps
                end) = Desktop.portfolio (Desktop.run_commands w commands s)).
  { induction commands as [| c rest IH]; intros s Hs; simpl; [exact Hs |].
    apply IH.
    destruct (run_command_store w c s) as [(Hp & Hd & _) | (_ & Hd & _)].
    - rewrite Hd, Hp. exact Hs.
    - rewrite Hd. reflexivity. }
  apply Hinv.
  destruct (PortfolioTracker_store w file) as [Hp Hd].
  rewrite Hd, Hp. reflexivity.
Qed.

(** X19.  An edit in the Tk edition whose ticker has a price replaces the
    selected position by the values of the dialog (ticker in upper case) and
    changes no other position; the date of the position is kept if it has
    one and is otherwise the time of the edit; the file is rewritten. *)
Theorem tracker_edit_replaces_selected
  (w : PriceCache.World) (index : nat)
  (dialog_result : Desktop.Position -> option Desktop.Position) (s : Desktop.State)
  (position result : Desktop.Position) (price : Q) :
  Desktop.portfolio s !! index = Some position ->
  dialog_result position = Some result ->
  fst (PriceCache.get_current_price w (upper (Desktop.ticker result)) (Desktop.feed s))
    = Some price ->
  let r := Desktop.edit_position w (Some index) dialog_result s in
  let edited :=
    {| Desktop.description := Desktop.description result;
       Desktop.ticker := upper (Desktop.ticker result);
       Desktop.quantity := Desktop.quantity result;
       Desktop.purchase_price := Desktop.purchase_price result;
       Desktop.fees := Desktop.fees result;
       Desktop.date_added :=
         Some (default
                 (PriceCache.clock w (S (PriceCache.clock_reads (Desktop.feed s))))
                 (Desktop.date_added position)) |} in
  fst r = Desktop.Done /\
  Desktop.portfolio (snd r) = <[index := edited]> (Desktop.portfolio s) /\
  Desktop.portfolio (snd r) !! index = Some edited /\
  (forall j : nat, j <> index ->
     Desktop.portfolio (snd r) !! j = Desktop.portfolio s !! j) /\
  Desktop.data_file (snd r) = Desktop.portfolio (snd r) :: Desktop.data_file s.
Proof.
  intros Hl Hres Hprice r edited. subst r edited.
  pose proof (get_current_price_counters w (upper (Desktop.ticker result)) (Desktop.feed s))
    as [Hreads _]. cbv zeta in Hreads.
  unfold Desktop.edit_position. rewrite Hl, Hres.
  destruct (PriceCache.get_current_price w _ (Desktop.feed s)) as [o fd].
  simpl in Hprice, Hreads. subst o.
  cbn [fst snd Desktop.set_status Desktop.portfolio Desktop.data_file
       PriceCache.datetime_now Desktop.set_feed Desktop.feed].
  match goal with
  | |- context [Desktop.update_display w ?x] =>
      destruct (update_display_store w x) as (Hp & Hd & _)
  end.
  rewrite Hp, Hd. cbn [Desktop.save_data Desktop.set_portfolio Desktop.portfolio
                       Desktop.data_file Desktop.set_feed].
  rewrite Hreads.
  split; [reflexivity |]. split; [reflexivity |].
  split; [apply list_lookup_insert_eq; eapply lookup_lt_Some; exact Hl |].
  split; [| reflexivity].
  intros j Hj. apply list_lookup_insert_ne. congruence.
Qed.

Lemma tracker_edit_replaces_selected_witness :
  Desktop.date_added <$>
    Desktop.portfolio
      (snd (Desktop.edit_position (Samples.quoting 12) (Some 0%nat)
              (fun _ => Some Samples.doubled)
              (Desktop.PortfolioTracker (Samples.quoting 12)
                 (Desktop.Stored [Samples.undated]))))
    = [Some (Samples.ticking 3)].
Proof.
  destruct (tracker_edit_replaces_selected (Samples.quoting 12) 0%nat
              (fun _ => Some Samples.doubled)
              (Desktop.PortfolioTracker (Samples.quoting 12)
                 (Desktop.Stored [Samples.undated]))
              Samples.undated Samples.doubled 12%Q eq_refl eq_refl eq_refl)
    as (_ & Hp & _).
  rewrite Hp. reflexivity.
Defined.

(** ** Display, refresh and export *)

(** X20.  [update_display] of the Tk edition: the tree has a row per
    position with the prices asked in turn; in a row with a price the value
    is quantity times price, the P&L is value minus cost and the row is
    tagged a gain exactly when the P&L is not negative; the summary has the
    investment as the sum of all costs, the current value as the sum of the
    values of the priced rows, their difference as P&L with no guard, and
    the percentage guarded on a positive investment. *)
Theorem update_display_totals (w : PriceCache.World) (s : Desktop.State) :
  let s' := Desktop.update_display w s in
  let prices :=
    fst (PriceCache.resolve_prices w (map Desktop.ticker (Desktop.portfolio s))
           (Desktop.feed s)) in
  Desktop.tree s' = zip_with Desktop.display_row (Desktop.portfolio s) prices /\
  length prices = length (Desktop.portfolio s) /\
  Forall (fun row =>
            match Desktop.tr_valuation row with
            | Some (price, value, pl, _) =>
                value = (Desktop.tr_quantity row * price)%Q /\
                pl = (value - Desktop.tr_total_cost row)%Q /\
                Desktop.tr_gain row = Some (Qle_bool 0 pl)
            | None => Desktop.tr_gain row = None
            end) (Desktop.tree s') /\
  exists summary : Desktop.Summary,
    Desktop.summary s' = Some summary /\
    Desktop.total_investment summary
      = Qsum (map (fun position =>
                     (Desktop.quantity position * Desktop.purchase_price position
                      + Desktop.fees position)%Q) (Desktop.portfolio s)) /\
    Desktop.total_current_value summary
      = Qsum (omap (fun row => (fun v => v.1.1.2) <$> Desktop.tr_valuation row)
                (Desktop.tree s')) /\
    Desktop.total_pl summary
      = (Desktop.total_current_value summary - Desktop.total_investment summary)%Q /\
    ((0 < Desktop.total_investment summary)%Q ->
     Desktop.total_pl_percent summary
       = (Desktop.total_pl summary / Desktop.total_investment summary * 100)%Q) /\
    ((Desktop.total_investment summary <= 0)%Q ->
     Desktop.total_pl_percent summary = 0%Q).
Proof.
  intros s' prices. subst s' prices.
  rewrite update_display_closed. simpl.
  pose proof (resolve_prices_length w (map Desktop.ticker (Desktop.portfolio s))
                (Desktop.feed s)) as Hlen.
  rewrite length_map in Hlen.
  split; [reflexivity |]. split; [exact Hlen |].
  split.
  { apply Forall_forall. intros row Hin.
    apply elem_of_lookup_zip_with in Hin as (i & position & o & -> & _ & _).
    destruct o as [price|]; simpl; auto. }
  eexists. split; [reflexivity |]. simpl.
  split; [reflexivity |].
  split.
  { f_equal. clear Hlen.
    generalize (PriceCache.resolve_prices w
                           (map Desktop.ticker (Desktop.portfolio s)) (Desktop.feed s)).1.
    induction (Desktop.portfolio s) as [| position rest IH]; intros [| o os];
      simpl; try reflexivity.
    destruct o as [price|]; simpl; rewrite IH; reflexivity. }
  split; [reflexivity |].
  split; intros H.
  - apply Qgtb_true in H. rewrite H. reflexivity.
  - apply Qgtb_false in H. rewrite H. reflexivity.
Qed.

Lemma update_display_totals_witness :
  exists summary : Desktop.Summary,
    Desktop.summary
      (Desktop.update_display Samples.provider_down
         (Desktop.PortfolioTracker Samples.provider_down
            (Desktop.Stored [Samples.undated]))) = Some summary /\
    Desktop.total_pl_percent summary
      = (Desktop.total_pl summary / Desktop.total_investment summary * 100)%Q.
Proof.
  destruct (update_display_totals Samples.provider_down
              (Desktop.PortfolioTracker Samples.provider_down
                 (Desktop.Stored [Samples.undated])))
    as (_ & _ & _ & summary & Hs & Hinv & _ & _ & Hpct & _).
  exists summary. split; [exact Hs |].
  apply Hpct. rewrite Hinv. vm_compute. reflexivity.
Defined.

(** X21.  [refresh_prices] of the Tk edition, run to its end, asks the
    provider about every ticker of the portfolio at least once, leaves the
    portfolio and the file alone, redraws one row per position and ends with
    the status "Prices refreshed". *)
Theorem tracker_refresh_asks_every_ticker
  (w : PriceCache.World) (s : Desktop.State) (t : string) :
  t ∈ map Desktop.ticker (Desktop.portfolio s) ->
  let s' := Desktop.refresh_prices w s in
  Desktop.portfolio s' = Desktop.portfolio s /\
  Desktop.data_file s' = Desktop.data_file s /\
  length (Desktop.tree s') = length (Desktop.portfolio s) /\
  Desktop.status_var s' = "Prices refreshed"%string /\
  exists asked : list string,
    PriceCache.queries (Desktop.feed s') = asked ++ PriceCache.queries (Desktop.feed s) /\
    t ∈ asked.
Proof.
  intros Hin s'. subst s'. unfold Desktop.refresh_prices.
  rewrite update_display_closed, refresh_loop_closed. simpl.
  split; [reflexivity |]. split; [reflexivity |].
  split.
  { rewrite length_zip_with, resolve_prices_length, length_map. lia. }
  split; [reflexivity |].
  destruct (resolve_prices_asks w (map Desktop.ticker (Desktop.portfolio s))
              (PriceCache.refresh_all_prices (Desktop.feed s)) []
              (PriceCache.queries (Desktop.feed s)))
    as (asked & Hq & _ & Hall).
  - reflexivity.
  - intros t'. simpl. rewrite lookup_empty. intros [x Hx]. discriminate.
  - match goal with
    | |- context [PriceCache.resolve_prices w ?ts ?fd] =>
        lazymatch fd with
        | context [PriceCache.resolve_prices] =>
            destruct (resolve_prices_counters w ts fd) as (_ & more & Hmore & _)
        end
    end.
    rewrite Hmore, Hq. exists (more ++ asked). rewrite <- app_assoc.
    split; [reflexivity |]. apply elem_of_app. right. apply Hall. exact Hin.
Qed.

Lemma tracker_refresh_asks_every_ticker_witness :
  exists asked : list string,
    PriceCache.queries
      (Desktop.feed
         (Desktop.refresh_prices (Samples.quoting 12)
            (Desktop.PortfolioTracker (Samples.quoting 12)
               (Desktop.Stored [Samples.undated]))))
      = asked ++ ["AAPL"%string] /\
    "AAPL"%string ∈ asked.
Proof.
  destruct (tracker_refresh_asks_every_ticker (Samples.quoting 12)
              (Desktop.PortfolioTracker (Samples.quoting 12)
                 (Desktop.Stored [Samples.undated])) "AAPL")
    as (_ & _ & _ & _ & asked & Hq & Hin).
  - apply list_elem_of_here.
  - exists asked. split; [exact Hq | exact Hin].
Defined.

(** X22.  The CSV of the Flask edition has the header and one row per
    position, every row with eleven cells, and the export changes neither the
    portfolio nor the data file.  Each of the cells Current Price, Current
    Value, P&L and P&L % reads N/A exactly when its own value is [None] or
    zero. *)
Theorem export_data_rows (w : PriceCache.World) (s : Web.State) :
  let r := Web.export_data w s in
  let rows := fst (fst (Web.get_portfolio_data w s)) in
  fst r = Web.csv_header :: map Web.csv_row rows /\
  length (fst r) = S (length (Web.portfolio s)) /\
  Forall (fun cells => length cells = 11%nat) (fst r) /\
  Web.portfolio (snd r) = Web.portfolio s /\
  Web.data_file (snd r) = Web.data_file s /\
  Forall (fun row =>
            let cells := Web.csv_row row in
            let blank (o : option Q) :=
              o = None \/ exists q : Q, o = Some q /\ (q == 0)%Q in
            (cells !! 6%nat = Some NA <-> blank (Web.row_current_price row)) /\
            (cells !! 7%nat = Some NA <-> blank (Web.row_current_value row)) /\
            (cells !! 8%nat = Some NA <-> blank (Web.row_pl row)) /\
            (cells !! 9%nat = Some NA <-> blank (Web.row_pl_percent row))) rows.
Proof.
  intros r rows. subst r rows.
  rewrite export_data_closed. simpl.
  split; [reflexivity |].
  split.
  { rewrite length_map, get_portfolio_data_closed. simpl.
    rewrite length_zip_with, resolve_prices_length, length_map. lia. }
  split.
  { constructor; [reflexivity |].
    apply Forall_forall. intros cells Hin.
    apply list_elem_of_fmap in Hin as (row & -> & _). reflexivity. }
  do 2 (split; [reflexivity |]).
  apply Forall_forall. intros row _. cbv zeta. simpl.
  assert (Hcell : forall (show : Q -> Cell) (o : option Q),
             (forall q : Q, show q <> NA) ->
             Some (Web.or_NA show o) = Some NA <->
             o = None \/ exists q : Q, o = Some q /\ (q == 0)%Q).
  { intros show o Hshow. rewrite <- (or_NA_iff show o Hshow).
    split; [intros [= H]; exact H | intros ->; reflexivity]. }
  repeat split; try (apply Hcell; discriminate);
    try (apply <- Hcell; [assumption | discriminate]).
Qed.

(** X23.  The CSV of the Tk edition has the header and one row per position,
    every row with ten cells, and the export changes neither the portfolio
    nor the data file nor the tree.  The four computed cells of a row are all
    N/A when the price is missing or zero, and otherwise the price, the
    value, the P&L and the guarded percentage. *)
Theorem tracker_export_rows (w : PriceCache.World) (s : Desktop.State) :
  let r := Desktop.export_data w s in
  let prices :=
    fst (PriceCache.resolve_prices w (map Desktop.ticker (Desktop.portfolio s))
           (snd (PriceCache.datetime_now w (Desktop.feed s)))) in
  fst r = Desktop.csv_header :: zip_with Desktop.csv_row (Desktop.portfolio s) prices /\
  length (fst r) = S (length (Desktop.portfolio s)) /\
  Forall (fun cells => length cells = 10%nat) (fst r) /\
  Desktop.portfolio (snd r) = Desktop.portfolio s /\
  Desktop.data_file (snd r) = Desktop.data_file s /\
  Desktop.tree (snd r) = Desktop.tree s /\
  (forall (position : Desktop.Position) (o : option Q),
      let cost := Desktop.total_cost position in
      (o = None \/ (exists p : Q, o = Some p /\ (p == 0)%Q)) /\
      drop 6 (Desktop.csv_row position o) = [NA; NA; NA; NA] \/
      (exists p : Q,
          o = Some p /\ ~ (p == 0)%Q /\
          drop 6 (Desktop.csv_row position o) =
            [CellNumber p; CellNumber (Desktop.quantity position * p);
             CellNumber (Desktop.quantity position * p - cost);
             CellNumber (if Qgtb cost 0
                         then ((Desktop.quantity position * p - cost) / cost * 100)%Q
                         else 0%Q)])).
Proof.
  intros r prices. subst r prices.
  unfold Desktop.export_data. simpl. rewrite export_loop_closed. simpl.
  split; [reflexivity |].
  split.
  { rewrite length_zip_with, resolve_prices_length, length_map. lia. }
  split.
  { constructor; [reflexivity |].
    apply Forall_forall. intros cells Hin.
    apply elem_of_lookup_zip_with in Hin as (i & position & o & -> & _ & _).
    unfold Desktop.csv_row. destruct o as [p|]; [destruct (truthy p) |]; reflexivity. }
  do 3 (split; [reflexivity |]).
  intros position o.
  destruct o as [p|]; [| left; auto].
  unfold Desktop.csv_row. destruct (truthy p) eqn:E.
  - right. exists p. split; [reflexivity |]. split; [| reflexivity].
    intros Hz. apply truthy_false in Hz. congruence.
  - left. apply truthy_false in E. split; [right; eauto | reflexivity].
Qed.

(** ** The dialog of the Tk edition *)

Section Texts.

Lemma upper_ascii_idempotent (c : ascii) : upper_ascii (upper_ascii c) = upper_ascii c.
Proof. destruct c as [[] [] [] [] [] [] [] []]; reflexivity. Qed.

Lemma is_space_upper_ascii (c : ascii) : is_space (upper_ascii c) = is_space c.
Proof. destruct c as [[] [] [] [] [] [] [] []]; reflexivity. Qed.

Lemma upper_idempotent (s : string) : upper (upper s) = upper s.
Proof.
  induction s as [| c s IH]; simpl; [reflexivity |].
  rewrite upper_ascii_idempotent, IH. reflexivity.
Qed.

Lemma nonempty_upper (s : string) : nonempty (upper s) = nonempty s.
Proof. destruct s; reflexivity. Qed.

Lemma lstrip_upper (s : string) : lstrip (upper s) = upper (lstrip s).
Proof.
  induction s as [| c s IH]; simpl; [reflexivity |].
  rewrite is_space_upper_ascii. destruct (is_space c); [exact IH | reflexivity].
Qed.

Lemma rstrip_upper (s : string) : rstrip (upper s) = upper (rstrip s).
Proof.
  induction s as [| c s IH]; simpl; [reflexivity |].
  rewrite IH, is_space_upper_ascii.
  destruct (rstrip s); simpl; [destruct (is_space c) |]; reflexivity.
Qed.

Lemma lstrip_length (s : string) : (String.length (lstrip s) <= String.length s)%nat.
Proof.
  induction s as [| c s IH]; simpl; [lia |].
  destruct (is_space c); simpl; lia.
Qed.

(** [lstrip] changes nothing exactly when the text does not start with a
    blank. *)
Lemma lstrip_fixed (c : ascii) (s : string) :
  lstrip (String c s) = String c s <-> is_space c = false.
Proof.
  simpl. destruct (is_space c); split; try reflexivity; try discriminate.
  intros H. pose proof (lstrip_length s) as Hlen. rewrite H in Hlen. simpl in Hlen. lia.
Qed.

Lemma lstrip_idempotent (s : string) : lstrip (lstrip s) = lstrip s.
Proof.
  induction s as [| c s IH]; simpl; [reflexivity |].
  destruct (is_space c) eqn:E; [exact IH |].
  simpl. rewrite E. reflexivity.
Qed.

Lemma rstrip_idempotent (s : string) : rstrip (rstrip s) = rstrip s.
Proof.
  induction s as [| c s IH]; simpl; [reflexivity |].
  destruct (rstrip s) as [| c' r] eqn:E.
  - destruct (is_space c) eqn:Ec; simpl; [reflexivity |]. rewrite Ec. reflexivity.
  - simpl in *. rewrite IH. reflexivity.
Qed.

Lemma lstrip_rstrip (s : string) : lstrip s = s -> lstrip (rstrip s) = rstrip s.
Proof.
  destruct s as [| c s]; [reflexivity |].
  intros H. apply lstrip_fixed in H.
  simpl. destruct (rstrip s); [rewrite H |]; simpl; rewrite H; reflexivity.
Qed.

Lemma strip_idempotent (s : string) : strip (strip s) = strip s.
Proof.
  unfold strip.
  rewrite (lstrip_rstrip (lstrip s) (lstrip_idempotent s)).
  apply rstrip_idempotent.
Qed.

Lemma strip_upper (s : string) : strip (upper s) = upper (strip s).
Proof. unfold strip. rewrite lstrip_upper, rstrip_upper. reflexivity. Qed.

End Texts.

(** X24.  The dialog sets a result exactly when [float()] reads the three
    numbers, the stripped description and the stripped ticker are not empty
    (texts in the ASCII range) and each number passes its test: a finite
    quantity and a finite purchase price must be positive and finite fees
    not negative, while nan and inf pass every test and -inf none.  The
    result then holds the stripped description, the stripped ticker in upper
    case and the three numbers. *)
Theorem ok_clicked_accepts_exactly (form : Desktop.Form) (result : Desktop.DialogResult) :
  Desktop.ok_clicked form = inr result <->
  exists q pp f : Desktop.PyFloat,
    Desktop.quantity_var form = Some q /\
    Desktop.price_var form = Some pp /\
    Desktop.fees_var form = Some f /\
    strip (Desktop.description_var form) <> EmptyString /\
    strip (Desktop.ticker_var form) <> EmptyString /\
    Desktop.passes_positive q /\
    Desktop.passes_positive pp /\
    Desktop.passes_not_negative f /\
    result = {| Desktop.result_description := strip (Desktop.description_var form);
                Desktop.result_ticker := upper (strip (Desktop.ticker_var form));
                Desktop.result_quantity := q; Desktop.result_purchase_price := pp;
                Desktop.result_fees := f |}.
Proof.
  assert (Hne : forall t : string, nonempty t = true <-> t <> EmptyString)
    by (intros [| c t]; simpl; split; congruence).
  split.
  - intros Hok.
    apply ok_clicked_inr in Hok
      as (Hq & Hpp & Hf & Hd & Ht & Hnd & Hnt & Htq & Htpp & Htf).
    exists (Desktop.result_quantity result), (Desktop.result_purchase_price result),
      (Desktop.result_fees result).
    rewrite Hd in Hnd. rewrite Ht, nonempty_upper in Hnt.
    apply Hne in Hnd, Hnt. apply le_zero_false in Htq, Htpp. apply lt_zero_false in Htf.
    repeat split; try assumption.
    destruct result. simpl in *. congruence.
  - intros (q & pp & f & Hq & Hpp & Hf & Hd & Ht & Htq & Htpp & Htf & ->).
    unfold Desktop.ok_clicked. rewrite Hq, Hpp, Hf.
    apply Hne in Hd, Ht. rewrite nonempty_upper, Hd, Ht. simpl.
    apply le_zero_false in Htq, Htpp. apply lt_zero_false in Htf.
    rewrite Htq, Htpp, Htf. reflexivity.
Qed.

Lemma ok_clicked_accepts_exactly_witness :
  Desktop.ok_clicked Samples.padded_form = inr Samples.padded_result /\
  Desktop.ok_clicked Samples.nan_form =
    inr {| Desktop.result_description := "Apple Inc";
           Desktop.result_ticker := "AAPL";
           Desktop.result_quantity := Desktop.Nan;
           Desktop.result_purchase_price := Desktop.Finite 10;
           Desktop.result_fees := Desktop.Finite 0 |}.
Proof.
  split; apply ok_clicked_accepts_exactly.
  - exists (Desktop.Finite 10), (Desktop.Finite 10), (Desktop.Finite 0).
    repeat split; try discriminate.
  - exists Desktop.Nan, (Desktop.Finite 10), (Desktop.Finite 0).
    repeat split; try discriminate.
Defined.

(** X25.  What the dialog hands over is in normal form: stripping the
    description or the ticker again, or putting the ticker in upper case
    again as [add_position] and [edit_position] do, changes nothing; so the
    ticker that is stored is the ticker of the dialog. *)
Theorem dialog_result_is_normal (form : Desktop.Form) (result : Desktop.DialogResult) :
  Desktop.ok_clicked form = inr result ->
  strip (Desktop.result_description result) = Desktop.result_description result /\
  strip (Desktop.result_ticker result) = Desktop.result_ticker result /\
  upper (Desktop.result_ticker result) = Desktop.result_ticker result /\
  Desktop.result_description result <> EmptyString /\
  Desktop.result_ticker result <> EmptyString.
Proof.
  intros Hok.
  apply ok_clicked_inr in Hok as (_ & _ & _ & Hd & Ht & Hnd & Hnt & _).
  split; [rewrite Hd; apply strip_idempotent |].
  split; [rewrite Ht, strip_upper, strip_idempotent; reflexivity |].
  split; [rewrite Ht; apply upper_idempotent |].
  split; intros H; rewrite H in *; discriminate.
Qed.

Lemma dialog_result_is_normal_witness :
  exists result : Desktop.DialogResult,
    Desktop.ok_clicked Samples.padded_form = inr result /\
    Desktop.result_description result = "Apple Inc"%string /\
    upper (Desktop.result_ticker result) = Desktop.result_ticker result.
Proof.
  eexists. split; [reflexivity |]. split; [reflexivity |].
  eapply (dialog_result_is_normal Samples.padded_form). reflexivity.
Defined.

(** X26.  A result of the dialog whose ticker has a price is appended as it
    is, stamped with the time read after the price check: the ticker is not
    changed by the second upper-casing; the file is rewritten and the tree
    redrawn with one row per position. *)
Theorem tracker_add_appends
  (w : PriceCache.World) (form : Desktop.Form) (dialog : Desktop.DialogResult)
  (result : Desktop.Position) (s : Desktop.State) (price : Q) :
  Desktop.ok_clicked form = inr dialog ->
  Desktop.as_position dialog = Some result ->
  fst (PriceCache.get_current_price w (Desktop.ticker result) (Desktop.feed s))
    = Some price ->
  let r := Desktop.add_position w (Some result) s in
  let added :=
    {| Desktop.description := Desktop.description result;
       Desktop.ticker := Desktop.ticker result;
       Desktop.quantity := Desktop.quantity result;
       Desktop.purchase_price := Desktop.purchase_price result;
       Desktop.fees := Desktop.fees result;
       Desktop.date_added :=
         Some (PriceCache.clock w (S (PriceCache.clock_reads (Desktop.feed s)))) |} in
  fst r = Desktop.Done /\
  Desktop.portfolio (snd r) = Desktop.portfolio s ++ [added] /\
  Desktop.data_file (snd r) = Desktop.portfolio (snd r) :: Desktop.data_file s /\
  length (Desktop.tree (snd r)) = length (Desktop.portfolio (snd r)).
Proof.
  intros Hok Hpos Hprice r added. subst r added.
  assert (Hupper : upper (Desktop.ticker result) = Desktop.ticker result).
  { apply ok_clicked_inr in Hok as (_ & _ & _ & _ & Ht & _).
    unfold Desktop.as_position in Hpos.
    destruct (Desktop.result_quantity dialog); try discriminate.
    destruct (Desktop.result_purchase_price dialog); try discriminate.
    destruct (Desktop.result_fees dialog); try discriminate.
    injection Hpos as <-. simpl. rewrite Ht. apply upper_idempotent. }
  pose proof (get_current_price_counters w (Desktop.ticker result) (Desktop.feed s))
    as [Hreads _]. cbv zeta in Hreads.
  unfold Desktop.add_position. rewrite Hupper.
  destruct (PriceCache.get_current_price w _ (Desktop.feed s)) as [o fd].
  simpl in Hprice, Hreads. subst o.
  cbn [fst snd Desktop.set_status Desktop.portfolio Desktop.data_file Desktop.tree
       PriceCache.datetime_now Desktop.set_feed Desktop.feed].
  match goal with
  | |- context [Desktop.update_display w ?x] =>
      destruct (update_display_store w x) as (Hp & Hd & _);
      pose proof (update_display_in_step w x) as Hstep
  end.
  unfold Desktop.display_in_step in Hstep.
  rewrite Hstep, Hp, Hd.
  cbn [Desktop.save_data Desktop.set_portfolio Desktop.portfolio Desktop.data_file
       Desktop.set_feed].
  rewrite Hreads. auto.
Qed.

Lemma tracker_add_appends_witness :
  length
    (Desktop.portfolio
       (snd (Desktop.add_position (Samples.quoting 12)
               (Some {| Desktop.description := "Apple Inc"; Desktop.ticker := "AAPL";
                        Desktop.quantity := 10; Desktop.purchase_price := 10;
                        Desktop.fees := 0; Desktop.date_added := None |})
               (Desktop.PortfolioTracker (Samples.quoting 12) Desktop.Missing))))
    = 1%nat.
Proof.
  destruct (tracker_add_appends (Samples.quoting 12) Samples.padded_form
              Samples.padded_result
              {| Desktop.description := "Apple Inc"; Desktop.ticker := "AAPL";
                 Desktop.quantity := 10; Desktop.purchase_price := 10;
                 Desktop.fees := 0; Desktop.date_added := None |}
              (Desktop.PortfolioTracker (Samples.quoting 12) Desktop.Missing)
              12%Q eq_refl eq_refl eq_refl) as (_ & Hp & _).
  rewrite Hp. reflexivity.
Defined.
